(** * Temperature distribution analysis (app.py): threshold grids,
      cold/hot day counts and summary statistics.

    The numeric core of [app.py] is embedded here.  A pandas cell is an
    [option Q]: [None] is NaN, [Some q] a finite reading.  In this
    embedding arithmetic is the exact rational arithmetic of the
    expressions in the source, and the pandas and numpy primitives follow
    their documented behaviour: reductions skip NaN and give NaN on an
    all-NaN or empty column, comparisons with NaN are false,
    [np.arange(start, stop, step)] has [ceil((stop - start) / step)]
    entries [start + i * step] and raises on a NaN bound.  It carries the
    results that rest on comparisons and on which quantity is computed.

    Where the rounding of the machine numbers decides the outcome, namely
    in the length and the entries of the threshold grid, module [Ieee]
    embeds lines 141-143 in binary32 and binary64 arithmetic, and the
    results about the grid's ends are evaluated there. *)

From Stdlib Require Import List ZArith QArith Qround Qminmax Lqa Lia Bool.
From Stdlib Require Import Sorted Permutation Qabs.
From Stdlib Require Import SpecFloat.
From Stdlib Require String Ascii.
From Equations Require Import Equations.
Import ListNotations.
Import String.StringSyntax.
Delimit Scope string_scope with string.
Open Scope Q_scope.

(* ===================================================================== *)
(** ** Data model *)
(* ===================================================================== *)

(** A float cell of a column; [None] stands for NaN. *)
Definition cell : Type := option Q.

(** One row of [daily_data]: the day (seconds since the epoch, never
    missing) and the two temperature columns. *)
Record DailySample : Type := mkSample {
  date : Z;
  temperature_2m_max : cell;
  temperature_2m_min : cell
}.

Definition DataFrame : Type := list DailySample.
Definition Series : Type := list cell.

(** [df['temperature_2m_min']], [df['temperature_2m_max']]. *)
Definition column (f : DailySample -> cell) (df : DataFrame) : Series :=
  map f df.

(** The finite readings of a column, in order. *)
Fixpoint values (s : Series) : list Q :=
  match s with
  | [] => []
  | Some v :: s' => v :: values s'
  | None :: s' => values s'
  end.

(* ===================================================================== *)
(** ** pandas and numpy primitives *)
(* ===================================================================== *)

Definition isna (c : cell) : bool :=
  match c with None => true | Some _ => false end.

Definition float_cells (r : DailySample) : list cell :=
  [temperature_2m_max r; temperature_2m_min r].

(** [df.dropna()]: drop every row holding at least one NaN. *)
Definition dropna (df : DataFrame) : DataFrame :=
  filter (fun r => negb (existsb isna (float_cells r))) df.

Definition Qltb (x y : Q) : bool :=
  match x ?= y with Lt => true | _ => false end.

(** [s < temp] and [s > temp]: element-wise masks, false on NaN. *)
Definition Series_lt (s : Series) (temp : Q) : list bool :=
  map (fun c => match c with Some v => Qltb v temp | None => false end) s.

Definition Series_gt (s : Series) (temp : Q) : list bool :=
  map (fun c => match c with Some v => Qltb temp v | None => false end) s.

(** [df[mask]]: the rows whose mask entry is true. *)
Fixpoint boolean_index (df : DataFrame) (mask : list bool) : DataFrame :=
  match df, mask with
  | r :: df', b :: mask' =>
      if b then r :: boolean_index df' mask' else boolean_index df' mask'
  | _, _ => []
  end.

(** [s.min()], [s.max()]: NaN entries are skipped; NaN when nothing is left. *)
Fixpoint Series_min (s : Series) : cell :=
  match s with
  | [] => None
  | None :: s' => Series_min s'
  | Some v :: s' =>
      match Series_min s' with
      | None => Some v
      | Some m => Some (Qmin v m)
      end
  end.

Fixpoint Series_max (s : Series) : cell :=
  match s with
  | [] => None
  | None :: s' => Series_max s'
  | Some v :: s' =>
      match Series_max s' with
      | None => Some v
      | Some m => Some (Qmax v m)
      end
  end.

Definition Qsum (l : list Q) : Q := fold_right Qplus 0 l.

(** [s.mean()]: sum of the finite readings over their number (the exact
    quotient; pandas rounds the sum and the quotient to the column's
    float type). *)
Definition Series_mean (s : Series) : cell :=
  match values s with
  | [] => None
  | vs => Some (Qsum vs / inject_Z (Z.of_nat (length vs)))
  end.

(** Scalar float arithmetic; NaN propagates. *)
Definition fmul (a : cell) (k : Q) : cell := option_map (fun x => x * k) a.
Definition fdiv (a : cell) (k : Q) : cell := option_map (fun x => x / k) a.
Definition fadd (a : cell) (k : Q) : cell := option_map (fun x => x + k) a.
Definition fsub (a b : cell) : cell :=
  match a, b with
  | Some x, Some y => Some (x - y)
  | _, _ => None
  end.

Definition np_floor (a : cell) : cell :=
  option_map (fun x => inject_Z (Qfloor x)) a.
Definition np_ceil (a : cell) : cell :=
  option_map (fun x => inject_Z (Qceiling x)) a.

(** [np.arange(start, stop, step)] in exact arithmetic: [None] is the
    ValueError raised when the length cannot be computed (a NaN bound); a
    non-positive length gives the empty array.  What rounding does to the
    length and to the entries, and the raise on an overflowing bound, are
    in [Ieee.np_arange] below. *)
Definition np_arange (start stop : cell) (step : Q) : option (list Q) :=
  match start, stop with
  | Some a, Some b =>
      let n := Z.to_nat (Qceiling ((b - a) / step)) in
      Some (map (fun i => a + inject_Z (Z.of_nat i) * step) (seq 0 n))
  | _, _ => None
  end.

(* ===================================================================== *)
(** ** The analysis of app.py *)
(* ===================================================================== *)

(** Lines 141-143: the x-axis of the cold-days chart. *)
Definition min_temp (df : DataFrame) : cell :=
  fdiv (np_floor (fmul (Series_min (column temperature_2m_min df)) 5)) 5.
Definition max_temp (df : DataFrame) : cell :=
  fdiv (np_ceil (fmul (Series_max (column temperature_2m_min df)) 5)) 5.
Definition temp_range (df : DataFrame) : option (list Q) :=
  np_arange (min_temp df) (fadd (max_temp df) 0.2) 0.2.

(** Lines 146-149: the loop appending one count per threshold. *)
Definition cold_days (df : DataFrame) (temp : Q) : nat :=
  length (boolean_index df (Series_lt (column temperature_2m_min df) temp)).
Definition cold_days_count (df : DataFrame) (temp_range : list Q) : list nat :=
  fold_left (fun acc temp => acc ++ [cold_days df temp]) temp_range [].

(** Lines 152-155: the two-column table handed to the chart. *)
Definition chart_data (df : DataFrame) (temp_range : list Q) : list (Q * nat) :=
  combine temp_range (cold_days_count df temp_range).

(** Lines 183-185: the x-axis of the hot-days chart. *)
Definition min_temp_max (df : DataFrame) : cell :=
  fdiv (np_floor (fmul (Series_min (column temperature_2m_max df)) 5)) 5.
Definition max_temp_max (df : DataFrame) : cell :=
  fdiv (np_ceil (fmul (Series_max (column temperature_2m_max df)) 5)) 5.
Definition temp_range_max (df : DataFrame) : option (list Q) :=
  np_arange (min_temp_max df) (fadd (max_temp_max df) 0.2) 0.2.

(** Lines 188-191. *)
Definition hot_days (df : DataFrame) (temp : Q) : nat :=
  length (boolean_index df (Series_gt (column temperature_2m_max df) temp)).
Definition hot_days_count (df : DataFrame) (temp_range_max : list Q) : list nat :=
  fold_left (fun acc temp => acc ++ [hot_days df temp]) temp_range_max [].

(** Lines 194-197. *)
Definition chart_data_max (df : DataFrame) (temp_range_max : list Q)
  : list (Q * nat) :=
  combine temp_range_max (hot_days_count df temp_range_max).

(** Lines 226-286: the eight metrics of the Temperature Summary, as the
    numbers handed to the [:.1f] formatter. *)
Record Summary : Type := mkSummary {
  total_days : nat;
  coldest_day : cell;
  warmest_min : cell;
  avg_min_temp : cell;
  hottest_day : cell;
  coolest_max : cell;
  avg_max_temp : cell;
  temp_range_metric : cell
}.

Definition summary (df : DataFrame) : Summary :=
  {| total_days := length df;
     coldest_day := Series_min (column temperature_2m_min df);
     warmest_min := Series_max (column temperature_2m_min df);
     avg_min_temp := Series_mean (column temperature_2m_min df);
     hottest_day := Series_max (column temperature_2m_max df);
     coolest_max := Series_min (column temperature_2m_max df);
     avg_max_temp := Series_mean (column temperature_2m_max df);
     temp_range_metric :=
       fsub (Series_max (column temperature_2m_max df))
            (Series_min (column temperature_2m_min df)) |}.

(** What the page shows after a submit, from line 129 on. *)
Inductive Page : Type :=
| NoValidData
| FetchError
| Rendered (cold : list (Q * nat)) (hot : list (Q * nat)) (stats : Summary).

(** Lines 129-286.  The [else] branch runs inside the [try] of line 81: an
    exception raised there ends in the [except] of line 307.  Over exact
    readings the only such exception is the one of [np_arange]; on the
    machine numbers [np.arange] also raises when a bound overflows (see
    [Ieee.np_arange]), so nothing is concluded here from the absence of
    [FetchError]. *)
Definition analyze (daily_data : DataFrame) : Page :=
  let df := dropna daily_data in
  if (length df =? 0)%nat then NoValidData
  else
    match temp_range df, temp_range_max df with
    | Some tr, Some trm =>
        Rendered (chart_data df tr) (chart_data_max df trm) (summary df)
    | _, _ => FetchError
    end.

(* ===================================================================== *)
(** ** Reference counts and the sort-and-bisect alternative *)
(* ===================================================================== *)

(** The number of readings strictly below, respectively strictly above, a
    threshold: the meaning of one entry of a distribution table. *)
Fixpoint count_below (vs : list Q) (t : Q) : nat :=
  match vs with
  | [] => O
  | v :: vs' => if Qltb v t then S (count_below vs' t) else count_below vs' t
  end.

Fixpoint count_above (vs : list Q) (t : Q) : nat :=
  match vs with
  | [] => O
  | v :: vs' => if Qltb t v then S (count_above vs' t) else count_above vs' t
  end.

Inductive Comparator : Type := LESS_THAN | GREATER_THAN.

(** The design alternative named by the specification (it is not in
    app.py): sort a copy of the readings once, then locate each threshold
    by binary search.  The sort is a stable insertion sort. *)
Fixpoint insert_sorted (x : Q) (l : list Q) : list Q :=
  match l with
  | [] => [x]
  | y :: l' => if Qltb y x then y :: insert_sorted x l' else x :: l
  end.

Definition sorted_copy (vs : list Q) : list Q :=
  fold_right insert_sorted [] vs.

(** The loop [while lo < hi: mid = (lo + hi) // 2; if p(a[mid]): lo = mid + 1
    else: hi = mid], returning [lo]. *)
Equations? bisect (p : Q -> bool) (a : list Q) (lo hi : nat) : nat
  by wf (hi - lo)%nat lt :=
  bisect p a lo hi with lt_dec lo hi => {
    | left _ with p (nth ((lo + hi) / 2) a 0) => {
        | true => bisect p a (S ((lo + hi) / 2)) hi ;
        | false => bisect p a lo ((lo + hi) / 2) } ;
    | right _ => lo }.
Proof.
  all: change (fst (Nat.divmod (lo + hi) 1 0 1)) with ((lo + hi) / 2)%nat.
  all: pose proof (Nat.div_mod_eq (lo + hi) 2) as E.
  all: pose proof (Nat.mod_upper_bound (lo + hi) 2) as B.
  all: lia.
Qed.

(** Number of entries of the sorted list strictly below [x]. *)
Definition bisect_left (a : list Q) (x : Q) : nat :=
  bisect (fun v => Qltb v x) a 0 (length a).

(** Number of entries of the sorted list not above [x]. *)
Definition bisect_right (a : list Q) (x : Q) : nat :=
  bisect (fun v => negb (Qltb x v)) a 0 (length a).

Definition aggregate_sorted (vs : list Q) (grid : list Q) (c : Comparator)
  : list (Q * nat) :=
  let a := sorted_copy vs in
  map (fun t =>
         (t, match c with
             | LESS_THAN => bisect_left a t
             | GREATER_THAN => (length a - bisect_right a t)%nat
             end)) grid.

(** The brute-force scan of the source, by comparator: the cold chart reads
    the minimum column with [<], the hot chart the maximum column with [>]. *)
Definition aggregate (df : DataFrame) (grid : list Q) (c : Comparator)
  : list (Q * nat) :=
  match c with
  | LESS_THAN => chart_data df grid
  | GREATER_THAN => chart_data_max df grid
  end.

Definition readings (df : DataFrame) (c : Comparator) : list Q :=
  match c with
  | LESS_THAN => values (column temperature_2m_min df)
  | GREATER_THAN => values (column temperature_2m_max df)
  end.

(** The worked example: minima -1.0, 0.0, 2.3 (the maxima play no part in
    the cold chart). *)
Definition example_df : DataFrame :=
  [ mkSample 0 (Some 4.0) (Some (-1.0));
    mkSample 86400 (Some 5.5) (Some 0.0);
    mkSample 172800 (Some 7.1) (Some 2.3) ].

(** The rows the specification calls well-formed for the cleaner. *)
Definition both_present (r : DailySample) : bool :=
  match temperature_2m_min r, temperature_2m_max r with
  | Some _, Some _ => true
  | _, _ => false
  end.

(** A cell that holds a reading equal, as a rational, to [q]. *)
Definition holds (c : cell) (q : Q) : Prop :=
  match c with
  | Some x => x == q
  | None => False
  end.

(** The expression shared by lines 141-143 and 183-185, over the column it
    reads. *)
Definition threshold_axis (s : Series) : option (list Q) :=
  np_arange (fdiv (np_floor (fmul (Series_min s) 5)) 5)
            (fadd (fdiv (np_ceil (fmul (Series_max s) 5)) 5) 0.2) 0.2.

(** The grid of each chart: minima for the cold one, maxima for the hot one. *)
Definition axis_of (df : DataFrame) (c : Comparator) : option (list Q) :=
  match c with
  | LESS_THAN => temp_range df
  | GREATER_THAN => temp_range_max df
  end.


(** Order-preserving selection of entries. *)
Inductive Subsequence {A : Type} : list A -> list A -> Prop :=
| Subsequence_nil : Subsequence [] []
| Subsequence_keep x l1 l2 : Subsequence l1 l2 -> Subsequence (x :: l1) (x :: l2)
| Subsequence_skip x l1 l2 : Subsequence l1 l2 -> Subsequence l1 (x :: l2).

(** The cleaning example: one complete day, one without minimum, one
    without maximum. *)
Definition gap_samples : DataFrame :=
  [ mkSample 0 (Some 5) (Some 1);
    mkSample 86400 (Some 6) None;
    mkSample 172800 None (Some 2) ].

(** The summary example: minima 1, 2, 3 and maxima 5, 6, 7. *)
Definition summary_df : DataFrame :=
  [ mkSample 0 (Some 5) (Some 1);
    mkSample 86400 (Some 6) (Some 2);
    mkSample 172800 (Some 7) (Some 3) ].

(** Three days without any reading. *)
Definition all_missing : DataFrame :=
  [ mkSample 0 None None; mkSample 86400 None None; mkSample 172800 None None ].

(* ===================================================================== *)
(** ** From the API response to the frame (lines 77-129, 307-309) *)
(* ===================================================================== *)

(** A [datetime.date]; dates compare as (year, month, day). *)
Record Date : Type := mkDate { year : Z; month : Z; day : Z }.

Definition date_compare (a b : Date) : comparison :=
  match (year a ?= year b)%Z with
  | Eq => match (month a ?= month b)%Z with
          | Eq => (day a ?= day b)%Z
          | c => c
          end
  | c => c
  end.

(** [a >= b] on dates. *)
Definition date_ge (a b : Date) : bool :=
  match date_compare a b with Lt => false | _ => true end.

(** The daily block of a response: [Time()], [TimeEnd()], [Interval()] in
    seconds (taken within the range that pandas timestamps cover), and the
    arrays of [Variables(0)] and [Variables(1)], where a missing reading is
    NaN. *)
Record Response : Type := mkResponse {
  Time : Z;
  TimeEnd : Z;
  Interval : Z;
  daily_temperature_2m_max : list cell;
  daily_temperature_2m_min : list cell
}.

(** Ceiling of a quotient of integers ([Z.div] is the floor quotient). *)
Definition ceil_div (a b : Z) : Z := (- ((- a) / b))%Z.

(** [pd.date_range(start, end, freq, inclusive="left")] on second stamps:
    the stamps [start + k * freq] lying before [end] in the direction of
    [freq], so none when [end] equals [start]; a zero frequency raises
    ([None]). *)
Definition date_range (start stop freq : Z) : option (list Z) :=
  if (freq =? 0)%Z then None
  else Some (map (fun k => (start + Z.of_nat k * freq)%Z)
                 (seq 0 (Z.to_nat (ceil_div (stop - start) freq)))).

Fixpoint frame_rows (dates : list Z) (maxs mins : list cell) : DataFrame :=
  match dates, maxs, mins with
  | d :: dates', x :: maxs', n :: mins' =>
      mkSample d x n :: frame_rows dates' maxs' mins'
  | _, _, _ => []
  end.

(** [pd.DataFrame(data=daily_data)] over the three columns: arrays of
    different lengths raise ([None]). *)
Definition make_DataFrame (dates : list Z) (maxs mins : list cell)
  : option DataFrame :=
  if ((length dates =? length maxs) && (length dates =? length mins))%nat
  then Some (frame_rows dates maxs mins)
  else None.

(** Lines 97-135 and what follows: the body of the [try], from the list the
    client returned ([None] when the call raised); every exception ends in
    the [except] of line 307. *)
Definition process (responses : option (list Response)) : Page :=
  match responses with
  | None => FetchError
  | Some [] => FetchError
  | Some (response :: _) =>
      match date_range (Time response) (TimeEnd response) (Interval response) with
      | None => FetchError
      | Some dates =>
          match make_DataFrame dates (daily_temperature_2m_max response)
                               (daily_temperature_2m_min response) with
          | None => FetchError
          | Some daily_data => analyze daily_data
          end
      end
  end.

(** What is below the form after a script run. *)
Inductive Screen : Type :=
| Idle
| DateOrderError
| Shown (page : Page).

(** Lines 77-309.  The client is called with the request of lines 88-94
    only past the date check; [weather_api] stands for that call on the
    chosen coordinates and dates. *)
Definition on_submit (submit_button : bool) (start_date end_date : Date)
  (weather_api : Date -> Date -> option (list Response)) : Screen :=
  if submit_button then
    if date_ge start_date end_date then DateOrderError
    else Shown (process (weather_api start_date end_date))
  else Idle.

(* ===================================================================== *)
(** ** Selected coordinates and the location buttons
       (lines 29-32, 41-65, 329-348) *)
(* ===================================================================== *)

(** [st.session_state] as a dictionary from keys to numbers. *)
Definition SessionState : Type := list (String.string * Q).

Fixpoint lookup (key : String.string) (st : SessionState) : option Q :=
  match st with
  | [] => None
  | (k, v) :: st' => if String.eqb key k then Some v else lookup key st'
  end.

(** Assignment to a key: the entry is replaced where it is, or added at the
    end. *)
Fixpoint assign (key : String.string) (v : Q) (st : SessionState) : SessionState :=
  match st with
  | [] => [(key, v)]
  | (k, w) :: st' =>
      if String.eqb key k then (k, v) :: st' else (k, w) :: assign key v st'
  end.

(** Lines 29-32. *)
Definition init_coordinates (st : SessionState) : SessionState :=
  let st1 :=
    match lookup "selected_latitude"%string st with
    | None => assign "selected_latitude"%string 52.52 st
    | Some _ => st
    end in
  match lookup "selected_longitude"%string st1 with
  | None => assign "selected_longitude"%string 13.41 st1
  | Some _ => st1
  end.

(** [st.number_input(min_value, max_value, value)]: a default outside the
    bounds raises ([None]). *)
Definition number_input (min_value max_value : Q) (value : option Q) : option Q :=
  match value with
  | Some v =>
      if Qle_bool min_value v && Qle_bool v max_value then Some v else None
  | None => None
  end.

(** Lines 41-48 and 58-65: the defaults the two inputs are created with. *)
Definition form_defaults (st : SessionState) : option (Q * Q) :=
  match number_input (-90.0) 90.0 (lookup "selected_latitude"%string st),
        number_input (-180.0) 180.0 (lookup "selected_longitude"%string st) with
  | Some lat, Some lon => Some (lat, lon)
  | _, _ => None
  end.

(** Lines 330-342. *)
Definition locations : list (String.string * (Q * Q)) :=
  [ ("Rio de Janeiro, Brazil"%string, (-22.91, -43.20));
    ("Vancouver, Canada"%string, (49.28, -123.12));
    ("Paris, France"%string, (48.85, 2.35));
    ("Toronto, Canada"%string, (43.65, -79.38));
    ("São Paulo, Brazil"%string, (-23.55, -46.63));
    ("Calgary, Canada"%string, (51.05, -114.07));
    ("Berlin, Germany"%string, (52.52, 13.41));
    ("New York, USA"%string, (40.71, -74.01));
    ("Tokyo, Japan"%string, (35.68, 139.69));
    ("Sydney, Australia"%string, (-33.87, 151.21));
    ("London, UK"%string, (51.51, -0.13)) ].

(** Lines 344-348: the buttons in table order; the first pressed one stores
    its coordinates and asks for a rerun, which ends the loop. *)
Fixpoint location_buttons (button : String.string -> bool)
  (locs : list (String.string * (Q * Q))) (st : SessionState)
  : SessionState * bool :=
  match locs with
  | [] => (st, false)
  | (city, (lat, lon)) :: locs' =>
      if button (String.append "📍 "%string city) then
        (assign "selected_longitude"%string lon (assign "selected_latitude"%string lat st), true)
      else location_buttons button locs' st
  end.

(** One run of the script on the session state: defaults, form, sidebar.
    A widget that raises ends the run with the state as it is then. *)
Definition script_run (button : String.string -> bool) (st : SessionState)
  : SessionState :=
  let st1 := init_coordinates st in
  match form_defaults st1 with
  | None => st1
  | Some _ => fst (location_buttons button locations st1)
  end.

(** The session states of a browser session: empty at first, then one
    script run after another, whatever buttons are pressed. *)
Inductive reachable : SessionState -> Prop :=
| reachable_start : reachable []
| reachable_run button st : reachable st -> reachable (script_run button st).

(** Stored coordinates that the two inputs accept as defaults. *)
Definition coordinates_valid (st : SessionState) : Prop :=
  (forall v, lookup "selected_latitude"%string st = Some v -> -90.0 <= v <= 90.0)
  /\ (forall v, lookup "selected_longitude"%string st = Some v -> -180.0 <= v <= 180.0).

(** Days with missing readings around complete ones. *)
Definition gap_response : Response :=
  mkResponse 0 259200 86400
             [Some 5; Some 6; None] [Some 1; None; Some 2].

(* ===================================================================== *)
(** ** The grid in machine arithmetic (lines 141-143, 183-185)

    The readings arrive as a float32 column, and numpy keeps float32 for
    what lines 141-142 compute from it (the Python numbers 5 and 0.2 take
    the type of the float32 operand).  [np.arange] computes its length
    from [(stop - start) / step] and its second entry [start + step] on
    those float32 operands, and returns a float64 array: entry 0 is
    [start], entry 1 is [start + step], entry [i] is
    [start + i * delta] in float64, with [delta] the difference of the
    first two entries.  Every operation rounds to nearest, ties to
    even. *)
(* ===================================================================== *)

Module Ieee.

(** A binary32 or binary64 number, as mantissa and exponent; the format is
    fixed by the operation that produced it. *)
Definition float32 : Type := spec_float.
Definition float64 : Type := spec_float.

Definition add32 : float32 -> float32 -> float32 := SFadd 24 128.
Definition sub32 : float32 -> float32 -> float32 := SFsub 24 128.
Definition mul32 : float32 -> float32 -> float32 := SFmul 24 128.
Definition div32 : float32 -> float32 -> float32 := SFdiv 24 128.
Definition add64 : float64 -> float64 -> float64 := SFadd 53 1024.
Definition sub64 : float64 -> float64 -> float64 := SFsub 53 1024.
Definition mul64 : float64 -> float64 -> float64 := SFmul 53 1024.
Definition div64 : float64 -> float64 -> float64 := SFdiv 53 1024.

(** An integer as float32, as float64. *)
Definition int32 (z : Z) : float32 := binary_normalize 24 128 z 0 false.
Definition int64 (z : Z) : float64 := binary_normalize 53 1024 z 0 false.

(** float32 to float64 (exact), float64 to float32 (rounded). *)
Definition widen (x : float32) : float64 :=
  match x with
  | S754_finite s m e => binary_normalize 53 1024 (cond_Zopp s (Zpos m)) e s
  | _ => x
  end.

Definition narrow (x : float64) : float32 :=
  match x with
  | S754_finite s m e => binary_normalize 24 128 (cond_Zopp s (Zpos m)) e s
  | _ => x
  end.

(** The Python float written [num/den] in decimal, e.g. [0.2]. *)
Definition py_float (num den : Z) : float64 := div64 (int64 num) (int64 den).

(** The float32 reading nearest to [num/den]. *)
Definition reading (num den : Z) : float32 := div32 (int32 num) (int32 den).

(** The integer part of a finite number, rounded down. *)
Definition Zfloor (x : spec_float) : Z :=
  match x with
  | S754_finite s m e =>
      if (0 <=? e)%Z then Z.shiftl (cond_Zopp s (Zpos m)) e
      else Z.shiftr (cond_Zopp s (Zpos m)) (- e)
  | _ => 0%Z
  end.

Definition np_floor (x : float32) : float32 :=
  match x with
  | S754_finite s m e =>
      if (0 <=? e)%Z then x else binary_normalize 24 128 (Zfloor x) 0 s
  | _ => x
  end.

Definition np_ceil (x : float32) : float32 := SFopp (np_floor (SFopp x)).

Definition is_nan (x : spec_float) : bool :=
  match x with S754_nan => true | _ => false end.

(** [s.min()], [s.max()] of a float32 column: NaN entries are skipped, NaN
    when nothing is left. *)
Fixpoint Series_min (s : list float32) : float32 :=
  match s with
  | [] => S754_nan
  | v :: s' =>
      if is_nan v then Series_min s'
      else match Series_min s' with
           | S754_nan => v
           | m => if SFltb v m then v else m
           end
  end.

Fixpoint Series_max (s : list float32) : float32 :=
  match s with
  | [] => S754_nan
  | v :: s' =>
      if is_nan v then Series_max s'
      else match Series_max s' with
           | S754_nan => v
           | m => if SFltb m v then v else m
           end
  end.

(** The length [np.arange] derives from the quotient: its ceiling, provided
    it is a number that fits a signed 64-bit index; otherwise the call
    raises ([None]). *)
Definition safe_ceil_to_intp (value : float64) : option Z :=
  match value with
  | S754_nan => None
  | S754_infinity _ => None
  | S754_zero _ => Some 0%Z
  | S754_finite _ _ _ =>
      let c := (- Zfloor (SFopp value))%Z in
      if ((- 2 ^ 63 <=? c) && (c <=? 2 ^ 63))%Z then Some c else None
  end.

(** The float64 entries of the array: the first two as given, the others
    [start + i * delta]. *)
Definition fill (first second : float64) (length : nat) : list float64 :=
  let delta := sub64 second first in
  map (fun i => match i with
                | O => first
                | S O => second
                | _ => add64 first (mul64 (int64 (Z.of_nat i)) delta)
                end) (seq 0 length).

(** [np.arange(start, stop, 0.2)] on float32 bounds.  (Exhausting the
    memory on a very long range is not represented.) *)
Definition np_arange (start stop : float32) : option (list float64) :=
  let step := narrow (py_float 1 5) in
  let value := div32 (sub32 stop start) step in
  match safe_ceil_to_intp (widen value) with
  | None => None
  | Some length =>
      if (length <=? 0)%Z then Some []
      else Some (fill (widen start) (widen (add32 start step)) (Z.to_nat length))
  end.

(** Lines 141-143 (and 183-185) on the column they read. *)
Definition min_temp (s : list float32) : float32 :=
  div32 (np_floor (mul32 (Series_min s) (int32 5))) (int32 5).
Definition max_temp (s : list float32) : float32 :=
  div32 (np_ceil (mul32 (Series_max s) (int32 5))) (int32 5).
Definition temp_range (s : list float32) : option (list float64) :=
  np_arange (min_temp s) (add32 (max_temp s) (narrow (py_float 1 5))).

(** [df[col] < temp] and [df[col] > temp], row by row: the float32 reading
    against the float64 threshold. *)
Definition cold_days (s : list float32) (temp : float64) : nat :=
  length (filter (fun v => SFltb (widen v) temp) s).
Definition hot_days (s : list float32) (temp : float64) : nat :=
  length (filter (fun v => SFltb temp (widen v)) s).

(** The exact value of a finite number. *)
Definition to_Q (x : spec_float) : Q :=
  match x with
  | S754_finite s m e =>
      if (0 <=? e)%Z then inject_Z (Z.shiftl (cond_Zopp s (Zpos m)) e)
      else Qmake (cond_Zopp s (Zpos m)) (Pos.shiftl 1 (Z.to_N (- e)))
  | _ => 0
  end.

End Ieee.




(** The float32 readings 5.0, 6.0, 7.0. *)
Definition drift_column : list Ieee.float32 :=
  [Ieee.reading 5 1; Ieee.reading 6 1; Ieee.reading 7 1].

(** The float32 readings 1.0, 2.0, 3.0. *)
Definition rising_column : list Ieee.float32 :=
  [Ieee.reading 1 1; Ieee.reading 2 1; Ieee.reading 3 1].

(** A single reading of 1.0, of 0.0, of 10^10, and of 3 * 10^38 (the
    greatest float32 is about 3.4 * 10^38). *)
Definition one_column : list Ieee.float32 := [Ieee.reading 1 1].
Definition zero_column : list Ieee.float32 := [Ieee.reading 0 1].
Definition far_column : list Ieee.float32 := [Ieee.reading (10 ^ 10) 1].
Definition huge_column : list Ieee.float32 := [Ieee.reading (3 * 10 ^ 38) 1].

(* ===================================================================== *)
(** ** Comparison and counting lemmas *)
(* ===================================================================== *)

Lemma Qltb_lt (x y : Q) : Qltb x y = true <-> x < y.
Proof.
  unfold Qltb. rewrite Qlt_alt. destruct (x ?= y); split; congruence.
Qed.

Lemma Qltb_ge (x y : Q) : Qltb x y = false <-> y <= x.
Proof.
  rewrite <- Bool.not_true_iff_false, Qltb_lt. split.
  - apply Qnot_lt_le.
  - apply Qle_not_lt.
Qed.

Lemma Qltb_irrefl (x : Q) : Qltb x x = false.
Proof. apply Qltb_ge, Qle_refl. Qed.

Lemma Qltb_mono_r (v t1 t2 : Q) : t1 <= t2 -> Qltb v t1 = true -> Qltb v t2 = true.
Proof.
  rewrite !Qltb_lt. intros Hle Hlt. eapply Qlt_le_trans; eassumption.
Qed.

Lemma Qltb_mono_l (v t1 t2 : Q) : t1 <= t2 -> Qltb t2 v = true -> Qltb t1 v = true.
Proof.
  rewrite !Qltb_lt. intros Hle Hlt. eapply Qle_lt_trans; eassumption.
Qed.

(** A loop that appends one item per element builds the mapped list. *)
Lemma append_loop_map {A B : Type} (f : A -> B) (l : list A) (acc : list B) :
  fold_left (fun acc x => acc ++ [f x]) l acc = acc ++ map f l.
Proof.
  revert acc. induction l as [|x l IH]; intros acc; simpl.
  - now rewrite app_nil_r.
  - rewrite IH, <- app_assoc. reflexivity.
Qed.

Lemma cold_days_count_map (df : DataFrame) (g : list Q) :
  cold_days_count df g = map (cold_days df) g.
Proof. unfold cold_days_count. now rewrite append_loop_map. Qed.

Lemma hot_days_count_map (df : DataFrame) (g : list Q) :
  hot_days_count df g = map (hot_days df) g.
Proof. unfold hot_days_count. now rewrite append_loop_map. Qed.

Lemma cold_days_below (df : DataFrame) (t : Q) :
  cold_days df t = count_below (values (column temperature_2m_min df)) t.
Proof.
  unfold cold_days, column.
  induction df as [|r df IH]; simpl; [reflexivity|].
  destruct (temperature_2m_min r) as [v|]; simpl.
  - destruct (Qltb v t); simpl; now rewrite IH.
  - exact IH.
Qed.

Lemma hot_days_above (df : DataFrame) (t : Q) :
  hot_days df t = count_above (values (column temperature_2m_max df)) t.
Proof.
  unfold hot_days, column.
  induction df as [|r df IH]; simpl; [reflexivity|].
  destruct (temperature_2m_max r) as [v|]; simpl.
  - destruct (Qltb t v); simpl; now rewrite IH.
  - exact IH.
Qed.

Lemma combine_map_self {A B : Type} (f : A -> B) (l : list A) :
  combine l (map f l) = map (fun x => (x, f x)) l.
Proof. induction l; simpl; congruence. Qed.

Lemma chart_data_below (df : DataFrame) (g : list Q) :
  chart_data df g =
  map (fun t => (t, count_below (values (column temperature_2m_min df)) t)) g.
Proof.
  unfold chart_data. rewrite cold_days_count_map, combine_map_self.
  apply map_ext. intros t. now rewrite cold_days_below.
Qed.

Lemma chart_data_max_above (df : DataFrame) (g : list Q) :
  chart_data_max df g =
  map (fun t => (t, count_above (values (column temperature_2m_max df)) t)) g.
Proof.
  unfold chart_data_max. rewrite hot_days_count_map, combine_map_self.
  apply map_ext. intros t. now rewrite hot_days_above.
Qed.

Lemma count_below_le_length (vs : list Q) (t : Q) :
  (count_below vs t <= length vs)%nat.
Proof. induction vs as [|v vs IH]; simpl; [lia|]. destruct (Qltb v t); lia. Qed.

Lemma count_above_le_length (vs : list Q) (t : Q) :
  (count_above vs t <= length vs)%nat.
Proof. induction vs as [|v vs IH]; simpl; [lia|]. destruct (Qltb t v); lia. Qed.

Lemma count_below_mono (vs : list Q) (t1 t2 : Q) :
  t1 <= t2 -> (count_below vs t1 <= count_below vs t2)%nat.
Proof.
  intros Hle. induction vs as [|v vs IH]; simpl; [lia|].
  destruct (Qltb v t1) eqn:E1.
  - rewrite (Qltb_mono_r _ _ _ Hle E1). lia.
  - destruct (Qltb v t2); lia.
Qed.

Lemma count_above_anti (vs : list Q) (t1 t2 : Q) :
  t1 <= t2 -> (count_above vs t2 <= count_above vs t1)%nat.
Proof.
  intros Hle. induction vs as [|v vs IH]; simpl; [lia|].
  destruct (Qltb t2 v) eqn:E2.
  - rewrite (Qltb_mono_l _ _ _ Hle E2). lia.
  - destruct (Qltb t1 v); lia.
Qed.

Lemma values_length_le (s : Series) : (length (values s) <= length s)%nat.
Proof. induction s as [|[v|] s IH]; simpl; lia. Qed.

Lemma count_below_cons (vs : list Q) (v t : Q) :
  count_below (v :: vs) t =
  ((if Qlt_le_dec v t then 1 else 0) + count_below vs t)%nat.
Proof.
  simpl. destruct (Qlt_le_dec v t) as [H|H].
  - apply Qltb_lt in H. now rewrite H.
  - apply Qltb_ge in H. now rewrite H.
Qed.

Lemma count_above_cons (vs : list Q) (v t : Q) :
  count_above (v :: vs) t =
  ((if Qlt_le_dec t v then 1 else 0) + count_above vs t)%nat.
Proof.
  simpl. destruct (Qlt_le_dec t v) as [H|H].
  - apply Qltb_lt in H. now rewrite H.
  - apply Qltb_ge in H. now rewrite H.
Qed.

(* ===================================================================== *)
(** ** The distribution tables *)
(* ===================================================================== *)

(** C2: the table has one (threshold, count) row per grid element, in grid
    order; under LESS_THAN the count at [t] is the number of readings [v]
    with [v < t], under GREATER_THAN the number with [t < v]; a reading
    equal to the threshold is never counted; for the minima -1.0, 0.0, 2.3
    the LESS_THAN counts at -0.8 and at 2.6 are 1 and 3. *)
Theorem aggregate_counts_strict (df : DataFrame) (grid : list Q) :
  chart_data df grid =
    map (fun t => (t, count_below (values (column temperature_2m_min df)) t)) grid
  /\ chart_data_max df grid =
    map (fun t => (t, count_above (values (column temperature_2m_max df)) t)) grid
  /\ map fst (chart_data df grid) = grid
  /\ map fst (chart_data_max df grid) = grid
  /\ length (cold_days_count df grid) = length grid
  /\ length (hot_days_count df grid) = length grid
  /\ (forall t, count_below [] t = O /\ count_above [] t = O)
  /\ (forall vs v t,
        count_below (v :: vs) t =
          ((if Qlt_le_dec v t then 1 else 0) + count_below vs t)%nat
        /\ count_above (v :: vs) t =
          ((if Qlt_le_dec t v then 1 else 0) + count_above vs t)%nat)
  /\ (forall vs t,
        count_below (t :: vs) t = count_below vs t
        /\ count_above (t :: vs) t = count_above vs t)
  /\ values (column temperature_2m_min example_df) = [-1.0; 0.0; 2.3]
  /\ chart_data example_df [-0.8; 2.6] = [(-0.8, 1%nat); (2.6, 3%nat)].
Proof.
  repeat split.
  - apply chart_data_below.
  - apply chart_data_max_above.
  - rewrite chart_data_below, map_map. simpl. apply map_id.
  - rewrite chart_data_max_above, map_map. simpl. apply map_id.
  - rewrite cold_days_count_map. apply length_map.
  - rewrite hot_days_count_map. apply length_map.
  - apply count_below_cons.
  - apply count_above_cons.
  - simpl. now rewrite Qltb_irrefl.
  - simpl. now rewrite Qltb_irrefl.
Qed.

(** C10: every count of either table is a natural number bounded by the
    number of readings of its column (hence by the number of rows). *)
Theorem counts_bounded (df : DataFrame) (grid : list Q) :
  Forall (fun n => (0 <= n <= length (values (column temperature_2m_min df)))%nat
                   /\ (n <= length df)%nat)
         (map snd (chart_data df grid))
  /\ Forall (fun n => (0 <= n <= length (values (column temperature_2m_max df)))%nat
                      /\ (n <= length df)%nat)
            (map snd (chart_data_max df grid)).
Proof.
  split.
  - rewrite chart_data_below, map_map. simpl.
    apply Forall_forall. intros n Hin. apply in_map_iff in Hin.
    destruct Hin as [t [<- _]].
    pose proof (count_below_le_length (values (column temperature_2m_min df)) t).
    pose proof (values_length_le (column temperature_2m_min df)).
    unfold column in *. rewrite length_map in *. lia.
  - rewrite chart_data_max_above, map_map. simpl.
    apply Forall_forall. intros n Hin. apply in_map_iff in Hin.
    destruct Hin as [t [<- _]].
    pose proof (count_above_le_length (values (column temperature_2m_max df)) t).
    pose proof (values_length_le (column temperature_2m_max df)).
    unfold column in *. rewrite length_map in *. lia.
Qed.

(** C3: over a strictly increasing grid the LESS_THAN counts never decrease
    and the GREATER_THAN counts never increase, from any entry to any later
    one. *)
Theorem counts_monotone (df : DataFrame) (grid : list Q) :
  Sorted Qlt grid ->
  StronglySorted le (cold_days_count df grid)
  /\ StronglySorted ge (hot_days_count df grid).
Proof.
  intros Hs. apply Sorted_StronglySorted in Hs; [|exact Qlt_trans].
  rewrite cold_days_count_map, hot_days_count_map.
  induction Hs as [|a l Hl [IHc IHh] Ha]; simpl.
  - split; constructor.
  - split; constructor; trivial; apply Forall_forall; intros n Hin;
      apply in_map_iff in Hin; destruct Hin as [t [<- Ht]];
      rewrite Forall_forall in Ha; specialize (Ha t Ht);
      apply Qlt_le_weak in Ha.
    + rewrite !cold_days_below. now apply count_below_mono.
    + rewrite !hot_days_above. unfold ge. now apply count_above_anti.
Qed.

Lemma counts_monotone_witness :
  Sorted Qlt [-1.0; -0.8; 2.4]
  /\ StronglySorted le (cold_days_count example_df [-1.0; -0.8; 2.4])
  /\ StronglySorted ge (hot_days_count example_df [-1.0; -0.8; 2.4]).
Proof.
  assert (H : Sorted Qlt [-1.0; -0.8; 2.4]) by (repeat constructor).
  split; [exact H | apply (counts_monotone example_df [-1.0; -0.8; 2.4] H)].
Defined.

(* ===================================================================== *)
(** ** Cleaning *)
(* ===================================================================== *)

Lemma dropna_keeps (r : DailySample) :
  negb (existsb isna (float_cells r)) = both_present r.
Proof.
  unfold both_present, float_cells. simpl.
  destruct (temperature_2m_max r), (temperature_2m_min r); reflexivity.
Qed.

Lemma filter_Subsequence {A : Type} (p : A -> bool) (l : list A) :
  Subsequence (filter p l) l.
Proof.
  induction l as [|x l IH]; simpl.
  - constructor.
  - destruct (p x); now constructor.
Qed.

Lemma filter_fixed {A : Type} (p : A -> bool) (l : list A) :
  filter p l = l -> Forall (fun x => p x = true) l.
Proof.
  induction l as [|x l IH]; simpl; intros H; [constructor|].
  destruct (p x) eqn:E.
  - injection H as H. constructor; auto.
  - pose proof (filter_length_le p l) as Hlen. rewrite H in Hlen.
    simpl in Hlen. lia.
Qed.

Lemma dropna_filter (df : DataFrame) : dropna df = filter both_present df.
Proof. unfold dropna. apply filter_ext. intros r. apply dropna_keeps. Qed.

Lemma cleaned_min_column (df : DataFrame) :
  dropna df = df ->
  column temperature_2m_min df = map Some (values (column temperature_2m_min df)).
Proof.
  rewrite dropna_filter. intros H. apply filter_fixed in H.
  induction H as [|r df Hr _ IH]; simpl; [reflexivity|].
  unfold both_present in Hr.
  destruct (temperature_2m_min r); [|discriminate].
  simpl. f_equal. exact IH.
Qed.

Lemma cleaned_max_column (df : DataFrame) :
  dropna df = df ->
  column temperature_2m_max df = map Some (values (column temperature_2m_max df)).
Proof.
  rewrite dropna_filter. intros H. apply filter_fixed in H.
  induction H as [|r df Hr _ IH]; simpl; [reflexivity|].
  unfold both_present in Hr.
  destruct (temperature_2m_min r); [|discriminate].
  destruct (temperature_2m_max r); [|discriminate].
  simpl. f_equal. exact IH.
Qed.

(** C7: cleaning keeps exactly the samples whose minimum and maximum are
    both present, in their original order, for every input (the empty one
    and inputs with gaps included); of the three samples of the example only
    the complete one remains. *)
Theorem dropna_both_present (samples : DataFrame) :
  dropna samples = filter both_present samples
  /\ Subsequence (dropna samples) samples
  /\ (forall r, In r (dropna samples) <->
                In r samples
                /\ temperature_2m_min r <> None
                /\ temperature_2m_max r <> None)
  /\ (length (dropna samples) <= length samples)%nat
  /\ dropna (dropna samples) = dropna samples
  /\ dropna gap_samples = [mkSample 0 (Some 5) (Some 1)].
Proof.
  split; [apply dropna_filter|].
  split; [apply filter_Subsequence|].
  split.
  { intros r. rewrite dropna_filter, filter_In. unfold both_present.
    destruct (temperature_2m_min r), (temperature_2m_max r);
      intuition congruence. }
  split; [apply filter_length_le|].
  split; [|reflexivity].
  rewrite !dropna_filter. apply forallb_filter_id.
  apply forallb_forall. intros r Hin. apply filter_In in Hin. tauto.
Qed.

(* ===================================================================== *)
(** ** Reductions of a column *)
(* ===================================================================== *)

Lemma Qmin_choice (x y : Q) : Qmin x y = x \/ Qmin x y = y.
Proof.
  unfold Qmin, GenericMinMax.gmin. destruct (x ?= y); auto.
Qed.

Lemma Qmax_choice (x y : Q) : Qmax x y = x \/ Qmax x y = y.
Proof.
  unfold Qmax, GenericMinMax.gmax. destruct (x ?= y); auto.
Qed.

Lemma Series_min_empty (s : Series) : values s = [] -> Series_min s = None.
Proof.
  induction s as [|[v|] s IH]; simpl; intros H; auto; discriminate.
Qed.

Lemma Series_max_empty (s : Series) : values s = [] -> Series_max s = None.
Proof.
  induction s as [|[v|] s IH]; simpl; intros H; auto; discriminate.
Qed.

Lemma Series_min_none_values (s : Series) : Series_min s = None -> values s = [].
Proof.
  induction s as [|[v|] s IH]; simpl; intros H; auto.
  destruct (Series_min s); discriminate.
Qed.

Lemma Series_max_none_values (s : Series) : Series_max s = None -> values s = [].
Proof.
  induction s as [|[v|] s IH]; simpl; intros H; auto.
  destruct (Series_max s); discriminate.
Qed.

(** The minimum is one of the readings and a lower bound of all of them. *)
Lemma Series_min_spec (s : Series) :
  values s <> [] ->
  exists m, Series_min s = Some m /\ In m (values s) /\ Forall (Qle m) (values s).
Proof.
  induction s as [|[v|] s IH]; simpl; intros Hne.
  - congruence.
  - destruct (Series_min s) as [m|] eqn:E.
    + destruct IH as [m' [Hm [Hin Hall]]].
      { intros Hv. apply Series_min_empty in Hv. congruence. }
      injection Hm as <-.
      exists (Qmin v m). split; [reflexivity|]. split.
      * destruct (Qmin_choice v m) as [-> | ->]; auto.
      * constructor; [apply Q.le_min_l|].
        eapply Forall_impl; [|exact Hall]. intros a Ha.
        eapply Qle_trans; [apply Q.le_min_r|exact Ha].
    + exists v. split; [reflexivity|].
      rewrite (Series_min_none_values s E). simpl.
      split; [auto|]. constructor; [apply Qle_refl|constructor].
  - apply IH, Hne.
Qed.

(** The maximum is one of the readings and an upper bound of all of them. *)
Lemma Series_max_spec (s : Series) :
  values s <> [] ->
  exists m, Series_max s = Some m /\ In m (values s)
            /\ Forall (fun v => v <= m) (values s).
Proof.
  induction s as [|[v|] s IH]; simpl; intros Hne.
  - congruence.
  - destruct (Series_max s) as [m|] eqn:E.
    + destruct IH as [m' [Hm [Hin Hall]]].
      { intros Hv. apply Series_max_empty in Hv. congruence. }
      injection Hm as <-.
      exists (Qmax v m). split; [reflexivity|]. split.
      * destruct (Qmax_choice v m) as [-> | ->]; auto.
      * constructor; [apply Q.le_max_l|].
        eapply Forall_impl; [|exact Hall]. intros a Ha.
        eapply Qle_trans; [exact Ha|apply Q.le_max_r].
    + exists v. split; [reflexivity|].
      rewrite (Series_max_none_values s E). simpl.
      split; [auto|]. constructor; [apply Qle_refl|constructor].
  - apply IH, Hne.
Qed.

Lemma Series_mean_values (s : Series) :
  values s <> [] ->
  Series_mean s = Some (Qsum (values s) / inject_Z (Z.of_nat (length (values s)))).
Proof.
  unfold Series_mean. destruct (values s); [congruence|reflexivity].
Qed.

Lemma cleaned_values_length (df : DataFrame) :
  dropna df = df ->
  length (values (column temperature_2m_min df)) = length df
  /\ length (values (column temperature_2m_max df)) = length df.
Proof.
  intros H. split.
  - pose proof (f_equal (@length _) (cleaned_min_column df H)) as E.
    unfold column in E at 1. rewrite !length_map in E. congruence.
  - pose proof (f_equal (@length _) (cleaned_max_column df H)) as E.
    unfold column in E at 1. rewrite !length_map in E. congruence.
Qed.

(* ===================================================================== *)
(** ** Summary statistics *)
(* ===================================================================== *)

(** C6: on a non-empty cleaned frame the summary gives the number of rows
    as count; for the minima and for the maxima separately the least
    reading, the greatest reading and the sum of the readings divided by
    the count; and as range the greatest maximum minus the least minimum.
    For minima 1, 2, 3 and maxima 5, 6, 7 the values are 1, 3, 2, 5, 7, 6,
    range 6 and count 3. *)
Theorem summary_statistics (df : DataFrame) :
  df <> [] -> dropna df = df ->
  exists minOfMin maxOfMin minOfMax maxOfMax : Q,
    let mins := values (column temperature_2m_min df) in
    let maxs := values (column temperature_2m_max df) in
    let count := length df in
    total_days (summary df) = count
    /\ length mins = count /\ length maxs = count
    /\ coldest_day (summary df) = Some minOfMin
    /\ In minOfMin mins /\ Forall (fun v => minOfMin <= v) mins
    /\ warmest_min (summary df) = Some maxOfMin
    /\ In maxOfMin mins /\ Forall (fun v => v <= maxOfMin) mins
    /\ avg_min_temp (summary df) = Some (Qsum mins / inject_Z (Z.of_nat count))
    /\ coolest_max (summary df) = Some minOfMax
    /\ In minOfMax maxs /\ Forall (fun v => minOfMax <= v) maxs
    /\ hottest_day (summary df) = Some maxOfMax
    /\ In maxOfMax maxs /\ Forall (fun v => v <= maxOfMax) maxs
    /\ avg_max_temp (summary df) = Some (Qsum maxs / inject_Z (Z.of_nat count))
    /\ temp_range_metric (summary df) = Some (maxOfMax - minOfMin)
    /\ total_days (summary summary_df) = 3%nat
    /\ holds (coldest_day (summary summary_df)) 1
    /\ holds (warmest_min (summary summary_df)) 3
    /\ holds (avg_min_temp (summary summary_df)) 2
    /\ holds (coolest_max (summary summary_df)) 5
    /\ holds (hottest_day (summary summary_df)) 7
    /\ holds (avg_max_temp (summary summary_df)) 6
    /\ holds (temp_range_metric (summary summary_df)) 6.
Proof.
  intros Hne Hclean.
  destruct (cleaned_values_length df Hclean) as [Lmin Lmax].
  assert (Nmin : values (column temperature_2m_min df) <> []).
  { intros E. rewrite E in Lmin. destruct df; [congruence|discriminate]. }
  assert (Nmax : values (column temperature_2m_max df) <> []).
  { intros E. rewrite E in Lmax. destruct df; [congruence|discriminate]. }
  destruct (Series_min_spec _ Nmin) as [a [Ha [Ia Fa]]].
  destruct (Series_max_spec _ Nmin) as [b [Hb [Ib Fb]]].
  destruct (Series_min_spec _ Nmax) as [c [Hc [Ic Fc]]].
  destruct (Series_max_spec _ Nmax) as [d [Hd [Id Fd]]].
  exists a, b, c, d. cbv zeta. unfold summary; simpl.
  rewrite Ha, Hb, Hc, Hd.
  rewrite (Series_mean_values _ Nmin), (Series_mean_values _ Nmax), Lmin, Lmax.
  repeat (split; [first [reflexivity | assumption]|]).
  reflexivity.
Qed.

Lemma summary_statistics_witness :
  summary_df <> [] /\ dropna summary_df = summary_df
  /\ exists minOfMin maxOfMin minOfMax maxOfMax : Q,
    total_days (summary summary_df) = length summary_df
    /\ coldest_day (summary summary_df) = Some minOfMin
    /\ warmest_min (summary summary_df) = Some maxOfMin
    /\ coolest_max (summary summary_df) = Some minOfMax
    /\ hottest_day (summary summary_df) = Some maxOfMax
    /\ temp_range_metric (summary summary_df) = Some (maxOfMax - minOfMin).
Proof.
  assert (Hne : summary_df <> []) by discriminate.
  assert (Hclean : dropna summary_df = summary_df) by reflexivity.
  split; [exact Hne|]. split; [exact Hclean|].
  destruct (summary_statistics summary_df Hne Hclean)
    as [a [b [c [d H]]]].
  exists a, b, c, d. cbv zeta in H. tauto.
Defined.

(* ===================================================================== *)
(** ** Empty input *)
(* ===================================================================== *)

Lemma count_no_rows (g : list Q) :
  cold_days_count [] g = repeat O (length g)
  /\ hot_days_count [] g = repeat O (length g).
Proof.
  rewrite cold_days_count_map, hot_days_count_map.
  induction g as [|t g [IHc IHh]]; simpl; [auto|].
  split; f_equal; assumption.
Qed.

(** The grid expression has no value on a frame without rows. *)
Lemma temp_range_empty_not_empty_grid :
  temp_range (dropna []) <> Some [] /\ temp_range_max (dropna []) <> Some [].
Proof. split; discriminate. Qed.

(** C4 (as the code has it): cleaning the empty input gives the empty
    frame; whenever the cleaned frame is empty the page reports that no
    valid data was found and builds no grid, table or statistics; the grid
    expressions themselves have no value there (the range cannot be
    computed); counting over an empty frame gives one zero per threshold
    for both comparisons, and an empty grid gives an empty table. *)
Theorem empty_input_stages (daily_data : DataFrame) (grid : list Q) :
  dropna daily_data = [] ->
  dropna [] = []
  /\ analyze daily_data = NoValidData
  /\ temp_range (dropna daily_data) = None
  /\ temp_range_max (dropna daily_data) = None
  /\ cold_days_count (dropna daily_data) grid = repeat O (length grid)
  /\ hot_days_count (dropna daily_data) grid = repeat O (length grid)
  /\ length (chart_data (dropna daily_data) grid) = length grid
  /\ length (chart_data_max (dropna daily_data) grid) = length grid
  /\ chart_data daily_data [] = []
  /\ chart_data_max daily_data [] = [].
Proof.
  intros E. unfold analyze. rewrite E. simpl.
  destruct (count_no_rows grid) as [Hc Hh].
  repeat split; try assumption.
  - unfold chart_data. rewrite Hc, length_combine, repeat_length. lia.
  - unfold chart_data_max. rewrite Hh, length_combine, repeat_length. lia.
Qed.

Lemma empty_input_stages_witness :
  dropna all_missing = []
  /\ analyze all_missing = NoValidData
  /\ cold_days_count (dropna all_missing) [-1.0; -0.8] = [O; O].
Proof.
  assert (E : dropna all_missing = []) by reflexivity.
  split; [exact E|].
  pose proof (empty_input_stages all_missing [-1.0; -0.8] E) as H.
  split; [apply H|]. apply H.
Defined.

(* ===================================================================== *)
(** ** The threshold grid *)
(* ===================================================================== *)

Lemma arange_length_arith (f c : Z) :
  (inject_Z c / 5 + 0.2 - inject_Z f / 5) / 0.2 == inject_Z (c - f + 1).
Proof.
  rewrite inject_Z_plus. unfold Z.sub.
  rewrite inject_Z_plus, inject_Z_opp. field.
Qed.

Lemma floor_le_ceil (m M : Q) :
  m <= M -> (Qfloor (m * 5) <= Qceiling (M * 5))%Z.
Proof.
  intros H. rewrite Zle_Qle.
  pose proof (Qfloor_le (m * 5)). pose proof (Qle_ceiling (M * 5)). lra.
Qed.

Lemma nth_map_seq {A : Type} (f : nat -> A) (d : A) (n : nat) :
  forall a i, (i < n)%nat -> nth i (map f (seq a n)) d = f (a + i)%nat.
Proof.
  induction n as [|n IH]; intros a i Hi; [lia|].
  destruct i as [|i]; simpl.
  - now rewrite Nat.add_0_r.
  - rewrite IH by lia. f_equal. lia.
Qed.

Lemma nth_arange (a step : Q) (n i : nat) :
  (i < n)%nat ->
  nth i (map (fun k => a + inject_Z (Z.of_nat k) * step) (seq 0 n)) 0
  = a + inject_Z (Z.of_nat i) * step.
Proof.
  intros Hi. now rewrite nth_map_seq.
Qed.

Lemma last_arange (a step : Q) (n : nat) :
  last (map (fun k => a + inject_Z (Z.of_nat k) * step) (seq 0 (S n))) 0
  = a + inject_Z (Z.of_nat n) * step.
Proof.
  rewrite seq_S, map_app. simpl. apply last_last.
Qed.

(** Shape of the grid in exact arithmetic, over a column with at least one
    reading: it starts at
    the floor of the least reading, has one entry per 0.2 step up to the
    ceiling of the greatest reading, and ends there. *)
Lemma threshold_axis_shape (s : Series) :
  values s <> [] ->
  exists (m M : Q) (g : list Q),
    Series_min s = Some m /\ Series_max s = Some M
    /\ In m (values s) /\ In M (values s)
    /\ Forall (fun v => m <= v <= M) (values s)
    /\ threshold_axis s = Some g
    /\ length g = S (Z.to_nat (Qceiling (M * 5) - Qfloor (m * 5)))
    /\ (Qfloor (m * 5) <= Qceiling (M * 5))%Z
    /\ (forall i, (i < length g)%nat ->
          nth i g 0 = inject_Z (Qfloor (m * 5)) / 5 + inject_Z (Z.of_nat i) * 0.2)
    /\ last g 0 == inject_Z (Qceiling (M * 5)) / 5.
Proof.
  intros Hne.
  destruct (Series_min_spec s Hne) as [m [Hm [Im Fm]]].
  destruct (Series_max_spec s Hne) as [M [HM [IM FM]]].
  assert (HmM : m <= M).
  { rewrite Forall_forall in Fm. apply Fm, IM. }
  pose proof (floor_le_ceil m M HmM) as Hfc.
  set (f := Qfloor (m * 5)) in *. set (c := Qceiling (M * 5)) in *.
  assert (Hn : Z.to_nat (Qceiling
            ((inject_Z c / 5 + 0.2 - inject_Z f / 5) / 0.2))
          = S (Z.to_nat (c - f))).
  { rewrite (Qceiling_comp _ _ (arange_length_arith f c)), Qceiling_Z. lia. }
  exists m, M. eexists.
  split; [exact Hm|]. split; [exact HM|].
  split; [exact Im|]. split; [exact IM|].
  split.
  { rewrite Forall_forall in *. intros v Hv. split; [apply Fm|apply FM]; exact Hv. }
  unfold threshold_axis. rewrite Hm, HM.
  unfold fmul, fdiv, fadd, np_floor, np_ceil, np_arange, option_map.
  cbv zeta. fold f c. rewrite Hn.
  split; [reflexivity|].
  split; [now rewrite length_map, length_seq|].
  split; [exact Hfc|].
  split.
  - intros i Hi. rewrite length_map, length_seq in Hi. now apply nth_arange.
  - rewrite last_arange.
    rewrite Z2Nat.id by lia.
    unfold Z.sub. rewrite inject_Z_plus, inject_Z_opp. field.
Qed.

Lemma axis_of_column (df : DataFrame) (c : Comparator) :
  axis_of df c =
  threshold_axis (match c with
                  | LESS_THAN => column temperature_2m_min df
                  | GREATER_THAN => column temperature_2m_max df
                  end).
Proof. destruct c; reflexivity. Qed.

Lemma readings_column (df : DataFrame) (c : Comparator) :
  readings df c =
  values (match c with
          | LESS_THAN => column temperature_2m_min df
          | GREATER_THAN => column temperature_2m_max df
          end).
Proof. destruct c; reflexivity. Qed.

Lemma hd_nth0 (g : list Q) : hd 0 g = nth 0 g 0.
Proof. destruct g; reflexivity. Qed.





(** C5 (failing input): in the arithmetic numpy performs, the minima 5.0,
    6.0, 7.0 give a grid of 11 thresholds whose last one, 5 + 10 * delta
    with delta = float32(5.2) - 5, is 6.9999980926513671875, below the reading
    7.0: that reading is not within [grid[0], grid[last]]. *)
Theorem grid_misses_maximum :
  exists g : list Ieee.float64,
    Ieee.temp_range drift_column = Some g
    /\ length g = 11%nat
    /\ Ieee.to_Q (hd S754_nan g) == 5
    /\ Ieee.to_Q (last g S754_nan) == 69999980926513671875 # 10000000000000000000
    /\ Ieee.to_Q (last g S754_nan) < 7
    /\ In (Ieee.reading 7 1) drift_column
    /\ Ieee.to_Q (Ieee.reading 7 1) == 7
    /\ ~ Forall (fun v => Ieee.to_Q (hd S754_nan g) <= Ieee.to_Q v
                          /\ Ieee.to_Q v <= Ieee.to_Q (last g S754_nan))
                drift_column.
Proof.
  destruct (Ieee.temp_range drift_column) as [g|] eqn:E;
    [|vm_compute in E; discriminate].
  exists g. split; [reflexivity|].
  vm_compute in E. injection E as <-.
  split; [reflexivity|]. split; [vm_compute; reflexivity|].
  split; [vm_compute; reflexivity|]. split; [vm_compute; reflexivity|].
  split; [simpl; tauto|]. split; [vm_compute; reflexivity|].
  intros H. apply Forall_forall with (x := Ieee.reading 7 1) in H;
    [|simpl; tauto].
  destruct H as [_ H]. revert H. vm_compute. intros H. now apply H.
Qed.


(* ===================================================================== *)
(** ** The grid and the counts on machine numbers *)
(* ===================================================================== *)

(** X17: the number of thresholds beyond the ceiling depends on rounding.  A
    single reading 1.0 gives the two thresholds 1.0 and 1.2000000476837158
    (the float32 nearest to 1.2): the quotient (1.2 - 1.0) / 0.2 rounds
    above 1.  A single reading 0.0 gives the one threshold 0.0. *)
Theorem grid_length_depends_on_rounding :
  (exists g : list Ieee.float64,
      Ieee.temp_range one_column = Some g
      /\ length g = 2%nat
      /\ Forall2 Qeq (map Ieee.to_Q g) [1; 1.2000000476837158203125])
  /\ (exists g : list Ieee.float64,
        Ieee.temp_range zero_column = Some g
        /\ length g = 1%nat
        /\ Forall2 Qeq (map Ieee.to_Q g) [0]).
Proof.
  split.
  - destruct (Ieee.temp_range one_column) as [g|] eqn:E;
      [|vm_compute in E; discriminate].
    exists g. split; [reflexivity|].
    vm_compute in E. injection E as <-.
    split; [reflexivity|]. repeat constructor; vm_compute; reflexivity.
  - destruct (Ieee.temp_range zero_column) as [g|] eqn:E;
      [|vm_compute in E; discriminate].
    exists g. split; [reflexivity|].
    vm_compute in E. injection E as <-.
    split; [reflexivity|]. repeat constructor; vm_compute; reflexivity.
Qed.

(** X18: finite readings can leave the charts without a grid.  For a
    reading of 3 * 10^38 the product with 5 overflows to infinity and
    [np.arange] raises, which line 307 reports as a fetch error; for a
    reading of 10^10 the stop [max_temp + 0.2] rounds back to [max_temp]
    and the grid is empty. *)
Theorem grid_lost_on_large_readings :
  Ieee.is_nan (Ieee.Series_min huge_column) = false
  /\ Ieee.min_temp huge_column = S754_infinity false
  /\ Ieee.temp_range huge_column = None
  /\ Ieee.to_Q (Ieee.min_temp far_column) == 10 ^ 10
  /\ Ieee.add32 (Ieee.max_temp far_column) (Ieee.narrow (Ieee.py_float 1 5))
     = Ieee.max_temp far_column
  /\ Ieee.temp_range far_column = Some [].
Proof.
  repeat split; vm_compute; reflexivity.
Qed.

(** X19: the counts at the last threshold when the grid has drifted.  For
    the maxima 5.0, 6.0, 7.0 the last threshold lies below 7.0 and the hot
    counts end at 1, not 0; for the minima 1.0, 2.0, 3.0 the last
    threshold lies above 3.0 and the cold counts end at 3, all days. *)
Theorem drifted_grid_counts :
  (exists g : list Ieee.float64,
      Ieee.temp_range drift_column = Some g
      /\ Ieee.to_Q (last g S754_nan) < 7
      /\ map (Ieee.hot_days drift_column) g
         = [2; 2; 2; 2; 2; 2; 1; 1; 1; 1; 1]%nat)
  /\ (exists g : list Ieee.float64,
        Ieee.temp_range rising_column = Some g
        /\ 3 < Ieee.to_Q (last g S754_nan)
        /\ map (Ieee.cold_days rising_column) g
           = [0; 1; 1; 1; 1; 2; 2; 2; 2; 2; 3]%nat).
Proof.
  split.
  - destruct (Ieee.temp_range drift_column) as [g|] eqn:E;
      [|vm_compute in E; discriminate].
    exists g. split; [reflexivity|].
    vm_compute in E. injection E as <-.
    split; vm_compute; reflexivity.
  - destruct (Ieee.temp_range rising_column) as [g|] eqn:E;
      [|vm_compute in E; discriminate].
    exists g. split; [reflexivity|].
    vm_compute in E. injection E as <-.
    split; vm_compute; reflexivity.
Qed.

(* ===================================================================== *)
(** ** Sorting once and bisecting *)
(* ===================================================================== *)

Lemma bisect_step (p : Q -> bool) (a : list Q) (lo hi : nat) :
  bisect p a lo hi =
  if lt_dec lo hi then
    if p (nth ((lo + hi) / 2) a 0) then bisect p a (S ((lo + hi) / 2)) hi
    else bisect p a lo ((lo + hi) / 2)
  else lo.
Proof.
  funelim (bisect p a lo hi); rewrite Heq; try rewrite Heq0; reflexivity.
Qed.

(** On a list made of a block where [p] holds followed by a block where it
    fails, the search started around the cut returns the cut. *)
Lemma bisect_cut (p : Q -> bool) (l1 l2 : list Q) :
  Forall (fun v => p v = true) l1 -> Forall (fun v => p v = false) l2 ->
  forall n lo hi, (hi - lo <= n)%nat ->
  (lo <= length l1 <= hi)%nat -> (hi <= length (l1 ++ l2))%nat ->
  bisect p (l1 ++ l2) lo hi = length l1.
Proof.
  intros H1 H2. induction n as [|n IH]; intros lo hi Hn Hb Hh;
    rewrite bisect_step; destruct (lt_dec lo hi) as [Hlt|Hge]; try lia.
  pose proof (Nat.div_mod_eq (lo + hi) 2) as E.
  pose proof (Nat.mod_upper_bound (lo + hi) 2) as B.
  set (mid := ((lo + hi) / 2)%nat) in *.
  destruct (p (nth mid (l1 ++ l2) 0)) eqn:Ep.
  - apply IH; try lia.
    destruct (Nat.lt_ge_cases mid (length l1)) as [Hm|Hm]; [lia|].
    rewrite app_nth2 in Ep by lia.
    rewrite Forall_forall in H2.
    rewrite (H2 (nth (mid - length l1) l2 0)) in Ep; [discriminate|].
    apply nth_In. rewrite length_app in Hh. lia.
  - apply IH; try lia.
    destruct (Nat.lt_ge_cases mid (length l1)) as [Hm|Hm]; [|lia].
    rewrite app_nth1 in Ep by lia.
    rewrite Forall_forall in H1.
    rewrite (H1 (nth mid l1 0)) in Ep; [discriminate|].
    now apply nth_In.
Qed.

(** A sorted list splits at the cut of any downward-closed test. *)
Lemma sorted_cut (p : Q -> bool) (a : list Q) :
  (forall x y, x <= y -> p y = true -> p x = true) ->
  StronglySorted Qle a ->
  exists l1 l2, a = l1 ++ l2
                /\ Forall (fun v => p v = true) l1
                /\ Forall (fun v => p v = false) l2.
Proof.
  intros Hp Hs. induction Hs as [|x a Hs [l1 [l2 [-> [H1 H2]]]] Hx].
  - exists [], []. repeat split; constructor.
  - destruct (p x) eqn:Ex.
    + exists (x :: l1), l2. repeat split; [constructor|]; assumption.
    + exists [], (x :: l1 ++ l2). repeat split; [constructor|].
      constructor; [exact Ex|].
      eapply Forall_impl; [|exact Hx]. intros y Hy.
      destruct (p y) eqn:Ey; [|reflexivity].
      rewrite (Hp x y Hy Ey) in Ex. discriminate.
Qed.

Lemma filter_cut (p : Q -> bool) (l1 l2 : list Q) :
  Forall (fun v => p v = true) l1 -> Forall (fun v => p v = false) l2 ->
  length (filter p (l1 ++ l2)) = length l1.
Proof.
  intros H1 H2. rewrite filter_app, length_app.
  replace (filter p l1) with l1.
  - replace (filter p l2) with (@nil Q); [simpl; lia|].
    symmetry. induction H2 as [|v l Hv _ IH]; simpl; [reflexivity|].
    now rewrite Hv.
  - symmetry. apply forallb_filter_id, forallb_forall.
    now apply Forall_forall.
Qed.

Lemma bisect_counts (p : Q -> bool) (a : list Q) :
  (forall x y, x <= y -> p y = true -> p x = true) ->
  StronglySorted Qle a ->
  bisect p a 0 (length a) = length (filter p a).
Proof.
  intros Hp Hs.
  destruct (sorted_cut p a Hp Hs) as [l1 [l2 [-> [H1 H2]]]].
  rewrite (filter_cut p l1 l2 H1 H2).
  apply (bisect_cut p l1 l2 H1 H2 (length (l1 ++ l2))); rewrite ?length_app; lia.
Qed.

Lemma insert_sorted_perm (x : Q) (l : list Q) :
  Permutation (x :: l) (insert_sorted x l).
Proof.
  induction l as [|y l IH]; simpl; [reflexivity|].
  destruct (Qltb y x); [|reflexivity].
  rewrite perm_swap. now constructor.
Qed.

Lemma sorted_copy_perm (vs : list Q) : Permutation vs (sorted_copy vs).
Proof.
  induction vs as [|v vs IH]; simpl; [constructor|].
  rewrite <- insert_sorted_perm. now constructor.
Qed.

Lemma insert_sorted_sorted (x : Q) (l : list Q) :
  StronglySorted Qle l -> StronglySorted Qle (insert_sorted x l).
Proof.
  intros Hs. induction Hs as [|y l Hs IH Hy]; simpl.
  - repeat constructor.
  - destruct (Qltb y x) eqn:E.
    + apply Qltb_lt, Qlt_le_weak in E. constructor; [exact IH|].
      rewrite <- insert_sorted_perm. now constructor.
    + apply Qltb_ge in E.
      constructor; [now constructor|].
      constructor; [exact E|].
      eapply Forall_impl; [|exact Hy]. intros z Hz.
      eapply Qle_trans; eassumption.
Qed.

Lemma sorted_copy_sorted (vs : list Q) : StronglySorted Qle (sorted_copy vs).
Proof.
  induction vs as [|v vs IH]; simpl; [constructor|].
  now apply insert_sorted_sorted.
Qed.

Lemma count_below_filter (vs : list Q) (t : Q) :
  count_below vs t = length (filter (fun v => Qltb v t) vs).
Proof.
  induction vs as [|v vs IH]; simpl; [reflexivity|].
  destruct (Qltb v t); simpl; now rewrite IH.
Qed.

Lemma count_above_filter (vs : list Q) (t : Q) :
  (count_above vs t + length (filter (fun v => negb (Qltb t v)) vs))%nat
  = length vs.
Proof.
  induction vs as [|v vs IH]; simpl; [reflexivity|].
  destruct (Qltb t v); simpl; lia.
Qed.

Lemma filter_length_perm (p : Q -> bool) (l l' : list Q) :
  Permutation l l' -> length (filter p l) = length (filter p l').
Proof.
  intros H. induction H as [|x l l' _ IH|x y l|l l' l'' _ IH1 _ IH2]; simpl.
  - reflexivity.
  - destruct (p x); simpl; now rewrite IH.
  - destruct (p x), (p y); reflexivity.
  - congruence.
Qed.

Lemma bisect_left_counts (vs : list Q) (t : Q) :
  bisect_left (sorted_copy vs) t = count_below vs t.
Proof.
  unfold bisect_left. rewrite bisect_counts.
  - rewrite count_below_filter. symmetry.
    apply filter_length_perm, sorted_copy_perm.
  - intros x y Hxy Hy. rewrite Qltb_lt in *. eapply Qle_lt_trans; eassumption.
  - apply sorted_copy_sorted.
Qed.

Lemma bisect_right_counts (vs : list Q) (t : Q) :
  (length (sorted_copy vs) - bisect_right (sorted_copy vs) t)%nat
  = count_above vs t.
Proof.
  unfold bisect_right. rewrite bisect_counts.
  - rewrite <- (filter_length_perm _ _ _ (sorted_copy_perm vs)).
    rewrite <- (Permutation_length (sorted_copy_perm vs)).
    pose proof (count_above_filter vs t). lia.
  - intros x y Hxy Hy. rewrite negb_true_iff, Qltb_ge in *.
    eapply Qle_trans; eassumption.
  - apply sorted_copy_sorted.
Qed.

(** C8: for every frame, every grid and either comparator, sorting a copy
    of the readings once and bisecting it for each threshold gives the very
    table that the per-threshold scan of the source gives. *)
Theorem aggregate_sorted_agrees (df : DataFrame) (grid : list Q) (c : Comparator) :
  aggregate_sorted (readings df c) grid c = aggregate df grid c.
Proof.
  unfold aggregate_sorted, aggregate, readings.
  destruct c.
  - rewrite chart_data_below. apply map_ext. intros t.
    now rewrite bisect_left_counts.
  - rewrite chart_data_max_above. apply map_ext. intros t.
    now rewrite bisect_right_counts.
Qed.

(* ===================================================================== *)
(** ** Outcome of the analysis *)
(* ===================================================================== *)

Lemma dropna_nil_iff (df : DataFrame) :
  dropna df = [] <-> Forall (fun r => both_present r = false) df.
Proof.
  rewrite dropna_filter. induction df as [|r df IH]; simpl.
  - split; [constructor|reflexivity].
  - destruct (both_present r) eqn:E.
    + split; [discriminate|]. intros H. inversion H; congruence.
    + rewrite IH. split; [now constructor|]. intros H. now inversion H.
Qed.

Lemma dropna_cons_iff (df : DataFrame) :
  dropna df <> [] <-> exists r, In r df /\ both_present r = true.
Proof.
  rewrite dropna_filter. split.
  - destruct (filter both_present df) as [|r l] eqn:E; [congruence|].
    intros _. exists r. apply filter_In. rewrite E. now left.
  - intros [r Hr] E. apply filter_In in Hr. rewrite E in Hr. destruct Hr.
Qed.

(* ===================================================================== *)
(** ** More on the grids and the two charts *)
(* ===================================================================== *)

(** Whenever the grid expression has a value, the column has a reading and
    the grid is the one described by [threshold_axis_shape]. *)
Lemma threshold_axis_some (s : Series) (g : list Q) :
  threshold_axis s = Some g -> values s <> [].
Proof.
  intros H E. unfold threshold_axis in H.
  rewrite (Series_min_empty s E) in H. discriminate.
Qed.

Lemma axis_of_some (df : DataFrame) (c : Comparator) (g : list Q) :
  axis_of df c = Some g ->
  exists m M : Q,
    In m (readings df c) /\ In M (readings df c)
    /\ Forall (fun v => m <= v <= M) (readings df c)
    /\ length g = S (Z.to_nat (Qceiling (M * 5) - Qfloor (m * 5)))
    /\ (Qfloor (m * 5) <= Qceiling (M * 5))%Z
    /\ (forall i, (i < length g)%nat ->
          nth i g 0 = inject_Z (Qfloor (m * 5)) / 5 + inject_Z (Z.of_nat i) * 0.2)
    /\ hd 0 g == inject_Z (Qfloor (m * 5)) / 5
    /\ last g 0 == inject_Z (Qceiling (M * 5)) / 5.
Proof.
  rewrite axis_of_column, readings_column. intros H.
  destruct (threshold_axis_shape _ (threshold_axis_some _ _ H))
    as [m [M [g' [_ [_ [Im [IM [HF [Hg [Hlen [Hfc [Hnth Hlast]]]]]]]]]]]].
  assert (g' = g) by congruence. subst g'.
  exists m, M. repeat (split; [assumption|]).
  split; [|exact Hlast].
  rewrite hd_nth0, Hnth by (rewrite Hlen; lia). simpl inject_Z. field.
Qed.

Lemma nth_lt_sorted (g : list Q) :
  (forall i j, (i < j < length g)%nat -> nth i g 0 < nth j g 0) ->
  StronglySorted Qlt g.
Proof.
  induction g as [|a g IH]; intros H; constructor.
  - apply IH. intros i j Hij. apply (H (S i) (S j)). simpl. lia.
  - apply Forall_forall. intros x Hx.
    destruct (In_nth g x 0 Hx) as [k [Hk <-]].
    apply (H O (S k)). simpl. lia.
Qed.

Lemma axis_sorted (df : DataFrame) (c : Comparator) (g : list Q) :
  axis_of df c = Some g -> StronglySorted Qlt g.
Proof.
  intros H.
  destruct (axis_of_some df c g H) as [m [M [_ [_ [_ [Hlen [_ [Hnth _]]]]]]]].
  apply nth_lt_sorted. intros i j Hij.
  rewrite !Hnth by lia.
  assert (inject_Z (Z.of_nat i) < inject_Z (Z.of_nat j))
    by (rewrite <- Zlt_Qlt; lia).
  lra.
Qed.

Lemma counts_sorted (vs : list Q) (g : list Q) :
  StronglySorted Qlt g ->
  StronglySorted le (map (count_below vs) g)
  /\ StronglySorted ge (map (count_above vs) g).
Proof.
  induction 1 as [|a l Hl [IHc IHh] Ha]; simpl.
  - split; constructor.
  - split; constructor; trivial; apply Forall_forall; intros n Hin;
      apply in_map_iff in Hin; destruct Hin as [t [<- Ht]];
      rewrite Forall_forall in Ha; specialize (Ha t Ht);
      apply Qlt_le_weak in Ha.
    + now apply count_below_mono.
    + unfold ge. now apply count_above_anti.
Qed.

Lemma analyze_rendered_inv (daily_data : DataFrame) cold hot stats :
  analyze daily_data = Rendered cold hot stats ->
  exists tr trm,
    temp_range (dropna daily_data) = Some tr
    /\ temp_range_max (dropna daily_data) = Some trm
    /\ cold = chart_data (dropna daily_data) tr
    /\ hot = chart_data_max (dropna daily_data) trm
    /\ stats = summary (dropna daily_data).
Proof.
  unfold analyze.
  destruct (length (dropna daily_data) =? 0)%nat; [discriminate|].
  destruct (temp_range (dropna daily_data)) as [tr|]; [|discriminate].
  destruct (temp_range_max (dropna daily_data)) as [trm|]; [|discriminate].
  intros H. injection H as <- <- <-. exists tr, trm. auto.
Qed.

Lemma map_snd_chart_data (df : DataFrame) (g : list Q) :
  map snd (chart_data df g) = cold_days_count df g.
Proof.
  rewrite chart_data_below, cold_days_count_map, map_map. simpl.
  apply map_ext. intros t. now rewrite cold_days_below.
Qed.

Lemma map_snd_chart_data_max (df : DataFrame) (g : list Q) :
  map snd (chart_data_max df g) = hot_days_count df g.
Proof.
  rewrite chart_data_max_above, hot_days_count_map, map_map. simpl.
  apply map_ext. intros t. now rewrite hot_days_above.
Qed.

Lemma map_fst_chart_data (df : DataFrame) (g : list Q) :
  map fst (chart_data df g) = g.
Proof. rewrite chart_data_below, map_map. simpl. apply map_id. Qed.

Lemma map_fst_chart_data_max (df : DataFrame) (g : list Q) :
  map fst (chart_data_max df g) = g.
Proof. rewrite chart_data_max_above, map_map. simpl. apply map_id. Qed.

Lemma analyze_no_data (daily_data : DataFrame) :
  analyze daily_data = NoValidData <-> dropna daily_data = [].
Proof.
  unfold analyze. destruct (dropna daily_data) as [|r l]; simpl; [tauto|].
  destruct (temp_range (r :: l)), (temp_range_max (r :: l));
    split; intros H; discriminate.
Qed.

Lemma analyze_rendered_nonempty (daily_data : DataFrame) cold hot stats :
  analyze daily_data = Rendered cold hot stats -> dropna daily_data <> [].
Proof.
  intros H E. apply analyze_no_data in E. congruence.
Qed.

(** X1: the page reports "no valid data" exactly when no day has both
    temperatures; and whenever the charts are rendered, some day has both,
    and the two tables and the summary are those of the cleaned frame. *)
Theorem analyze_outcome (daily_data : DataFrame) :
  (analyze daily_data = NoValidData
   <-> Forall (fun r => both_present r = false) daily_data)
  /\ match analyze daily_data with
     | Rendered cold hot stats =>
         (exists r, In r daily_data /\ both_present r = true)
         /\ stats = summary (dropna daily_data)
         /\ map snd cold = cold_days_count (dropna daily_data) (map fst cold)
         /\ map snd hot = hot_days_count (dropna daily_data) (map fst hot)
     | _ => True
     end.
Proof.
  split.
  - rewrite <- dropna_nil_iff. apply analyze_no_data.
  - destruct (analyze daily_data) as [| |cold hot stats] eqn:E; trivial.
    pose proof (analyze_rendered_nonempty _ _ _ _ E) as Hne.
    destruct (analyze_rendered_inv _ _ _ _ E) as [tr [trm [_ [_ [-> [-> ->]]]]]].
    split; [now apply dropna_cons_iff|]. split; [reflexivity|].
    rewrite map_snd_chart_data, map_snd_chart_data_max.
    now rewrite map_fst_chart_data, map_fst_chart_data_max.
Qed.

(** X5: on every rendered page the cold counts never fall and the hot
    counts never rise along their chart, and no count exceeds the Total
    Days shown in the summary. *)
Theorem rendered_charts_monotone (daily_data : DataFrame)
  (cold hot : list (Q * nat)) (stats : Summary) :
  analyze daily_data = Rendered cold hot stats ->
  StronglySorted le (map snd cold)
  /\ StronglySorted ge (map snd hot)
  /\ Forall (fun n => (n <= total_days stats)%nat) (map snd cold)
  /\ Forall (fun n => (n <= total_days stats)%nat) (map snd hot).
Proof.
  intros H.
  destruct (analyze_rendered_inv _ _ _ _ H) as [tr [trm [Ht [Htm [-> [-> ->]]]]]].
  set (df := dropna daily_data) in *.
  pose proof (axis_sorted df LESS_THAN tr Ht) as Str.
  pose proof (axis_sorted df GREATER_THAN trm Htm) as Strm.
  rewrite map_snd_chart_data, map_snd_chart_data_max.
  split.
  { rewrite cold_days_count_map.
    rewrite (map_ext _ _ (cold_days_below df)).
    apply (counts_sorted _ _ Str). }
  split.
  { rewrite hot_days_count_map.
    rewrite (map_ext _ _ (hot_days_above df)).
    apply (counts_sorted _ _ Strm). }
  simpl total_days. split.
  - rewrite cold_days_count_map. apply Forall_forall. intros n Hin.
    apply in_map_iff in Hin. destruct Hin as [t [<- _]].
    rewrite cold_days_below.
    pose proof (count_below_le_length (values (column temperature_2m_min df)) t).
    pose proof (values_length_le (column temperature_2m_min df)).
    unfold column in *. rewrite length_map in *. lia.
  - rewrite hot_days_count_map. apply Forall_forall. intros n Hin.
    apply in_map_iff in Hin. destruct Hin as [t [<- _]].
    rewrite hot_days_above.
    pose proof (count_above_le_length (values (column temperature_2m_max df)) t).
    pose proof (values_length_le (column temperature_2m_max df)).
    unfold column in *. rewrite length_map in *. lia.
Qed.

Lemma rendered_charts_monotone_witness :
  exists cold hot stats,
    analyze summary_df = Rendered cold hot stats
    /\ StronglySorted le (map snd cold)
    /\ StronglySorted ge (map snd hot)
    /\ Forall (fun n => (n <= total_days stats)%nat) (map snd cold).
Proof.
  destruct (analyze summary_df) as [| |cold hot stats] eqn:E;
    [discriminate|discriminate|].
  exists cold, hot, stats. split; [reflexivity|].
  pose proof (rendered_charts_monotone summary_df cold hot stats E) as H.
  tauto.
Defined.

Lemma count_below_split (vs : list Q) (t1 t2 : Q) :
  t1 <= t2 ->
  count_below vs t2 =
  (count_below vs t1
   + length (filter (fun v => negb (Qltb v t1) && Qltb v t2) vs))%nat.
Proof.
  intros Hle. induction vs as [|v vs IH]; simpl; [reflexivity|].
  destruct (Qltb v t1) eqn:E1; simpl.
  - rewrite (Qltb_mono_r _ _ _ Hle E1). lia.
  - destruct (Qltb v t2); simpl; lia.
Qed.

Lemma count_above_split (vs : list Q) (t1 t2 : Q) :
  t1 <= t2 ->
  count_above vs t1 =
  (count_above vs t2
   + length (filter (fun v => Qltb t1 v && negb (Qltb t2 v)) vs))%nat.
Proof.
  intros Hle. induction vs as [|v vs IH]; simpl; [reflexivity|].
  destruct (Qltb t2 v) eqn:E2; simpl.
  - rewrite (Qltb_mono_l _ _ _ Hle E2). simpl. lia.
  - destruct (Qltb t1 v); simpl; lia.
Qed.

(** X6: the charts are cumulative histograms: from a threshold to a higher
    one the cold count grows by the number of minima [v] with
    t1 <= v < t2, and the hot count shrinks by the number of maxima [v]
    with t1 < v <= t2. *)
Theorem count_increment (df : DataFrame) (t1 t2 : Q) :
  t1 <= t2 ->
  cold_days df t2 =
    (cold_days df t1
     + length (filter (fun v => negb (Qltb v t1) && Qltb v t2)
                      (values (column temperature_2m_min df))))%nat
  /\ hot_days df t1 =
    (hot_days df t2
     + length (filter (fun v => Qltb t1 v && negb (Qltb t2 v))
                      (values (column temperature_2m_max df))))%nat.
Proof.
  intros Hle. rewrite !cold_days_below, !hot_days_above.
  split; [now apply count_below_split|now apply count_above_split].
Qed.

Lemma count_increment_witness :
  -0.8 <= 2.4
  /\ cold_days example_df 2.4 = (cold_days example_df (-0.8) + 2)%nat.
Proof.
  assert (H : -0.8 <= 2.4) by discriminate.
  split; [exact H|].
  exact (proj1 (count_increment example_df (-0.8) 2.4 H)).
Defined.

(* ===================================================================== *)
(** ** More on the summary *)
(* ===================================================================== *)

Lemma in_values_row (f : DailySample -> cell) (df : DataFrame) (x : Q) :
  In x (values (column f df)) <-> exists r, In r df /\ f r = Some x.
Proof.
  unfold column. induction df as [|r df IH]; simpl.
  - split; [tauto|]. intros [r [[] _]].
  - destruct (f r) as [v|] eqn:E; simpl; rewrite IH; split.
    + intros [<-|[r' [Hin Hr']]]; [exists r; auto|exists r'; auto].
    + intros [r' [[<-|Hin] Hr']]; [left; congruence|right; eauto].
    + intros [r' [Hin Hr']]. exists r'; auto.
    + intros [r' [[<-|Hin] Hr']]; [congruence|eauto].
Qed.

Lemma cleaned_rows (df : DataFrame) :
  dropna df = df ->
  Forall (fun r => exists a b, temperature_2m_min r = Some a
                               /\ temperature_2m_max r = Some b) df.
Proof.
  rewrite dropna_filter. intros H. apply filter_fixed in H.
  eapply Forall_impl; [|exact H]. intros r Hr. unfold both_present in Hr.
  destruct (temperature_2m_min r) as [a|]; [|discriminate].
  destruct (temperature_2m_max r) as [b|]; [|discriminate].
  eauto.
Qed.

Lemma Qsum_columns_le (df : DataFrame) :
  Forall (fun r => match temperature_2m_min r, temperature_2m_max r with
                   | Some a, Some b => a <= b
                   | _, _ => False
                   end) df ->
  Qsum (values (column temperature_2m_min df))
  <= Qsum (values (column temperature_2m_max df)).
Proof.
  unfold column. induction 1 as [|r df Hr _ IH]; simpl; [apply Qle_refl|].
  destruct (temperature_2m_min r) as [a|]; [|destruct Hr].
  destruct (temperature_2m_max r) as [b|]; [|destruct Hr].
  simpl. unfold Qsum in *. lra.
Qed.

(** X8: when every complete day has its minimum at most its maximum, the
    summary is ordered accordingly: Coldest Day <= Coolest Max,
    Warmest Min <= Hottest Day, Avg Min Temp <= Avg Max Temp, and Temp
    Range is at least the spread of every single day, hence not
    negative. *)
Theorem summary_ordering (df : DataFrame) :
  df <> [] -> dropna df = df ->
  Forall (fun r => match temperature_2m_min r, temperature_2m_max r with
                   | Some a, Some b => a <= b
                   | _, _ => True
                   end) df ->
  exists lo_min hi_min avg_min lo_max hi_max avg_max range : Q,
    coldest_day (summary df) = Some lo_min
    /\ warmest_min (summary df) = Some hi_min
    /\ avg_min_temp (summary df) = Some avg_min
    /\ coolest_max (summary df) = Some lo_max
    /\ hottest_day (summary df) = Some hi_max
    /\ avg_max_temp (summary df) = Some avg_max
    /\ temp_range_metric (summary df) = Some range
    /\ lo_min <= lo_max /\ hi_min <= hi_max /\ avg_min <= avg_max
    /\ 0 <= range
    /\ Forall (fun r => match temperature_2m_min r, temperature_2m_max r with
                        | Some a, Some b => b - a <= range
                        | _, _ => True
                        end) df.
Proof.
  intros Hne Hclean Hord.
  pose proof (cleaned_rows df Hclean) as Hrows.
  destruct (cleaned_values_length df Hclean) as [Lmin Lmax].
  assert (Nmin : values (column temperature_2m_min df) <> []).
  { intros E. rewrite E in Lmin. destruct df; [congruence|discriminate]. }
  assert (Nmax : values (column temperature_2m_max df) <> []).
  { intros E. rewrite E in Lmax. destruct df; [congruence|discriminate]. }
  destruct (Series_min_spec _ Nmin) as [a [Ha [Ia Fa]]].
  destruct (Series_max_spec _ Nmin) as [b [Hb [Ib Fb]]].
  destruct (Series_min_spec _ Nmax) as [c [Hc [Ic Fc]]].
  destruct (Series_max_spec _ Nmax) as [d [Hd [Id Fd]]].
  rewrite Forall_forall in Fa, Fb, Fc, Fd, Hord, Hrows.
  assert (Hrow : forall r, In r df ->
            exists x y, temperature_2m_min r = Some x
                        /\ temperature_2m_max r = Some y
                        /\ a <= x /\ x <= y /\ y <= d).
  { intros r Hr. destruct (Hrows r Hr) as [x [y [Ex Ey]]].
    specialize (Hord r Hr). rewrite Ex, Ey in Hord.
    exists x, y. split; [exact Ex|]. split; [exact Ey|].
    split; [|split; [exact Hord|]].
    - apply Fa. apply in_values_row. eauto.
    - apply Fd. apply in_values_row. eauto. }
  exists a, b,
    (Qsum (values (column temperature_2m_min df)) / inject_Z (Z.of_nat (length df))),
    c, d,
    (Qsum (values (column temperature_2m_max df)) / inject_Z (Z.of_nat (length df))),
    (d - a).
  unfold summary; simpl. rewrite Ha, Hb, Hc, Hd.
  rewrite (Series_mean_values _ Nmin), (Series_mean_values _ Nmax), Lmin, Lmax.
  repeat (split; [reflexivity|]).
  split.
  { apply in_values_row in Ic. destruct Ic as [r [Hr Er]].
    destruct (Hrow r Hr) as [x [y [Ex [Ey [H1 [H2 H3]]]]]].
    assert (y = c) by congruence. subst y. lra. }
  split.
  { apply in_values_row in Ib. destruct Ib as [r [Hr Er]].
    destruct (Hrow r Hr) as [x [y [Ex [Ey [H1 [H2 H3]]]]]].
    assert (x = b) by congruence. subst x. lra. }
  split.
  { assert (Hn : 0 < inject_Z (Z.of_nat (length df))).
    { change 0 with (inject_Z 0). rewrite <- Zlt_Qlt.
      destruct df; [congruence|simpl; lia]. }
    apply Qmult_le_compat_r; [|apply Qlt_le_weak, Qinv_lt_0_compat, Hn].
    apply Qsum_columns_le. apply Forall_forall. intros r Hr.
    destruct (Hrow r Hr) as [x [y [Ex [Ey [_ [H2 _]]]]]].
    now rewrite Ex, Ey. }
  split.
  { destruct df as [|r df']; [congruence|].
    destruct (Hrow r (or_introl eq_refl)) as [x [y [_ [_ [H1 [H2 H3]]]]]]. lra. }
  apply Forall_forall. intros r Hr.
  destruct (Hrow r Hr) as [x [y [Ex [Ey [H1 [H2 H3]]]]]].
  rewrite Ex, Ey. lra.
Qed.

Lemma summary_ordering_witness :
  summary_df <> [] /\ dropna summary_df = summary_df
  /\ exists lo_min hi_max range : Q,
       coldest_day (summary summary_df) = Some lo_min
       /\ hottest_day (summary summary_df) = Some hi_max
       /\ temp_range_metric (summary summary_df) = Some range
       /\ 0 <= range.
Proof.
  assert (Hne : summary_df <> []) by discriminate.
  assert (Hclean : dropna summary_df = summary_df) by reflexivity.
  assert (Hord : Forall (fun r =>
             match temperature_2m_min r, temperature_2m_max r with
             | Some a, Some b => a <= b
             | _, _ => True
             end) summary_df)
    by (repeat constructor; discriminate).
  split; [exact Hne|]. split; [exact Hclean|].
  destruct (summary_ordering summary_df Hne Hclean Hord)
    as [a [b [c [d [e [f [g H]]]]]]].
  exists a, e, g. tauto.
Defined.

(* ===================================================================== *)
(** ** The time axis, the frame and the submit handler *)
(* ===================================================================== *)

Lemma ceil_div_bounds (a b : Z) :
  (0 < b)%Z -> ((ceil_div a b - 1) * b < a <= ceil_div a b * b)%Z.
Proof.
  intros Hb. unfold ceil_div.
  pose proof (Z.div_mod (- a) b ltac:(lia)) as E.
  pose proof (Z.mod_pos_bound (- a) b Hb) as B.
  nia.
Qed.

Lemma sorted_map_seq (f : nat -> Z) (n : nat) :
  (forall i j, (i < j)%nat -> (f i < f j)%Z) ->
  forall a, StronglySorted Z.lt (map f (seq a n)).
Proof.
  intros Hf. induction n as [|n IH]; intros a; simpl; constructor.
  - apply IH.
  - apply Forall_forall. intros x Hx. apply in_map_iff in Hx.
    destruct Hx as [j [<- Hj]]. apply in_seq in Hj. apply Hf. lia.
Qed.

Lemma date_range_shape (start stop freq : Z) :
  (0 < freq)%Z ->
  exists l : list Z,
    date_range start stop freq = Some l
    /\ StronglySorted Z.lt l
    /\ Forall (fun d => (start <= d)%Z /\ ((d < stop)%Z \/ start = stop)) l
    /\ (forall d, In d l <->
          exists k, (0 <= k)%Z /\ d = (start + k * freq)%Z /\ (d < stop)%Z)
    /\ length l = Z.to_nat (ceil_div (stop - start) freq).
Proof.
  intros Hf. unfold date_range.
  destruct (freq =? 0)%Z eqn:E0; [apply Z.eqb_eq in E0; lia|].
  pose proof (ceil_div_bounds (stop - start) freq Hf) as B.
  set (q := ceil_div (stop - start) freq) in *.
  eexists. split; [reflexivity|].
  assert (Hin : forall d,
    In d (map (fun k => (start + Z.of_nat k * freq)%Z) (seq 0 (Z.to_nat q)))
    <-> exists k, (0 <= k)%Z /\ d = (start + k * freq)%Z /\ (d < stop)%Z).
  { intros d. rewrite in_map_iff. split.
    - intros [k [<- Hk]]. apply in_seq in Hk. exists (Z.of_nat k).
      split; [lia|]. split; [reflexivity|]. nia.
    - intros [k [Hk [-> Hlt]]]. exists (Z.to_nat k).
      rewrite Z2Nat.id by lia. split; [reflexivity|].
      apply in_seq. nia. }
  split; [apply sorted_map_seq; intros i j Hij; nia|].
  split.
  { apply Forall_forall. intros d Hd. apply Hin in Hd.
    destruct Hd as [k [Hk [-> Hlt]]]. split; [nia|now left]. }
  split; [exact Hin|].
  now rewrite length_map, length_seq.
Qed.

(** X9: for a positive interval and an end stamp other than the start, the
    time axis is the strictly increasing list of the stamps
    start + k * freq that lie at or after the start and strictly before the
    end, which is never part of it; it is empty exactly when the end is
    before the start, and a span of n whole periods gives n stamps. *)
Theorem date_range_left_inclusive (start stop freq : Z) :
  (0 < freq)%Z -> start <> stop ->
  exists l : list Z,
    date_range start stop freq = Some l
    /\ StronglySorted Z.lt l
    /\ (forall d, In d l <->
          exists k, (0 <= k)%Z /\ d = (start + k * freq)%Z /\ (d < stop)%Z)
    /\ (forall i, (i < length l)%nat ->
          nth i l 0%Z = (start + Z.of_nat i * freq)%Z)
    /\ ~ In stop l
    /\ (l = [] <-> (stop < start)%Z)
    /\ (forall n : nat, stop = (start + Z.of_nat n * freq)%Z -> length l = n).
Proof.
  intros Hf Hne.
  destruct (date_range_shape start stop freq Hf) as [l [El [Hs [_ [Hin Hlen]]]]].
  pose proof (ceil_div_bounds (stop - start) freq Hf) as B.
  exists l. split; [exact El|]. split; [exact Hs|]. split; [exact Hin|].
  split.
  { intros i Hi. unfold date_range in El.
    destruct (freq =? 0)%Z; [discriminate|].
    injection El as <-. rewrite length_map, length_seq in Hi.
    now rewrite nth_map_seq. }
  split; [rewrite Hin; intros [k [_ [_ Hlt]]]; lia|].
  split.
  { split.
    - intros ->. simpl in Hlen. nia.
    - intros Hlt. apply length_zero_iff_nil. nia. }
  intros n Hn. nia.
Qed.

Lemma date_range_left_inclusive_witness :
  (0 < 86400)%Z /\ 0%Z <> 259200%Z
  /\ exists l : list Z,
       date_range 0 259200 86400 = Some l
       /\ StronglySorted Z.lt l /\ ~ In 259200%Z l /\ length l = 3%nat.
Proof.
  assert (H : (0 < 86400)%Z) by reflexivity.
  assert (Hne : 0%Z <> 259200%Z) by discriminate.
  split; [exact H|]. split; [exact Hne|].
  destruct (date_range_left_inclusive 0 259200 86400 H Hne)
    as [l [E [Hs [_ [_ [Hn [_ Hlen]]]]]]].
  exists l. split; [exact E|]. split; [exact Hs|]. split; [exact Hn|].
  apply (Hlen 3%nat). reflexivity.
Defined.

Lemma frame_rows_columns (dates : list Z) (maxs mins : list cell) :
  length dates = length maxs -> length dates = length mins ->
  map date (frame_rows dates maxs mins) = dates
  /\ column temperature_2m_max (frame_rows dates maxs mins) = maxs
  /\ column temperature_2m_min (frame_rows dates maxs mins) = mins
  /\ length (frame_rows dates maxs mins) = length dates.
Proof.
  unfold column. revert maxs mins.
  induction dates as [|d dates IH]; intros [|x maxs] [|n mins] H1 H2;
    simpl in *; try discriminate; auto.
  destruct (IH maxs mins) as [A [B [C D]]]; [lia|lia|].
  repeat split; congruence.
Qed.

(** X10: the frame is built exactly when the three columns have the same
    length, and construction raises otherwise; a frame that is built has
    one row per stamp and gives each column back unchanged. *)
Theorem make_DataFrame_columns (dates : list Z) (maxs mins : list cell) :
  match make_DataFrame dates maxs mins with
  | Some df =>
      length dates = length maxs /\ length dates = length mins
      /\ map date df = dates
      /\ column temperature_2m_max df = maxs
      /\ column temperature_2m_min df = mins
      /\ length df = length dates
  | None => ~ (length dates = length maxs /\ length dates = length mins)
  end.
Proof.
  unfold make_DataFrame.
  destruct (length dates =? length maxs)%nat eqn:E1;
    destruct (length dates =? length mins)%nat eqn:E2; simpl;
    rewrite ?Nat.eqb_eq, ?Nat.eqb_neq in *; try tauto.
  split; [exact E1|]. split; [exact E2|].
  now apply frame_rows_columns.
Qed.

Lemma frame_rows_complete (dates : list Z) (maxs mins : list cell) :
  length dates = length maxs -> length dates = length mins ->
  (exists r, In r (frame_rows dates maxs mins) /\ both_present r = true)
  <-> exists i, (i < length dates)%nat
                /\ nth i maxs None <> None /\ nth i mins None <> None.
Proof.
  revert maxs mins.
  induction dates as [|d dates IH]; intros [|x maxs] [|n mins] H1 H2;
    simpl in *; try discriminate.
  - split; [intros [r [[] _]]|intros [i [Hi _]]; lia].
  - assert (L1 : length dates = length maxs) by lia.
    assert (L2 : length dates = length mins) by lia.
    specialize (IH maxs mins L1 L2). split.
    + intros [r [[<-|Hin] Hr]].
      * exists O. unfold both_present in Hr. simpl in Hr.
        destruct n, x; try discriminate. repeat split; [lia|discriminate|discriminate].
      * destruct (proj1 IH (ex_intro _ r (conj Hin Hr))) as [i [Hi Hc]].
        exists (S i). split; [lia|exact Hc].
    + intros [[|i] [Hi [Hx Hn]]].
      * exists (mkSample d x n). split; [now left|].
        unfold both_present. simpl. destruct n, x; congruence.
      * assert (Hi' : (i < length dates)%nat) by lia.
        destruct (proj2 IH (ex_intro _ i (conj Hi' (conj Hx Hn))))
          as [r [Hin Hr]].
        exists r. split; [now right|exact Hr].
Qed.

(** X11: what the page shows for the first response of the client, when
    its interval is positive and its end stamp is not its start stamp.
    With n the number of stamps of its time axis: "no valid data" appears
    exactly when both arrays have n entries and no day has both readings;
    if an array does not have n entries the error message appears; and
    the charts appear only if both arrays have n entries and some day has
    both readings.  A failed call and an empty list of responses give the
    error message. *)
Theorem process_outcome (response : Response) (rest : list Response) :
  (0 < Interval response)%Z -> Time response <> TimeEnd response ->
  let n := Z.to_nat (ceil_div (TimeEnd response - Time response)
                              (Interval response)) in
  let maxs := daily_temperature_2m_max response in
  let mins := daily_temperature_2m_min response in
  let shaped := length maxs = n /\ length mins = n in
  let complete := fun i => nth i maxs None <> None /\ nth i mins None <> None in
  (process (Some (response :: rest)) = NoValidData
   <-> shaped /\ forall i, ~ complete i)
  /\ (shaped \/ process (Some (response :: rest)) = FetchError)
  /\ (forall cold hot stats,
        process (Some (response :: rest)) = Rendered cold hot stats ->
        shaped /\ exists i, complete i)
  /\ process None = FetchError
  /\ process (Some []) = FetchError.
Proof.
  intros Hpos _. cbv zeta. unfold process.
  destruct (date_range_shape (Time response) (TimeEnd response) _ Hpos)
    as [dates [Ed [_ [_ [_ Ld]]]]].
  rewrite Ed. rewrite <- Ld.
  set (maxs := daily_temperature_2m_max response).
  set (mins := daily_temperature_2m_min response).
  unfold make_DataFrame.
  destruct (length dates =? length maxs)%nat eqn:E1; simpl.
  2:{ apply Nat.eqb_neq in E1.
      split; [split; [discriminate|intros [[H _] _]; congruence]|].
      split; [now right|].
      split; [intros c h s H; discriminate|split; reflexivity]. }
  destruct (length dates =? length mins)%nat eqn:E2; simpl.
  2:{ apply Nat.eqb_neq in E2.
      split; [split; [discriminate|intros [[_ H] _]; congruence]|].
      split; [now right|].
      split; [intros c h s H; discriminate|split; reflexivity]. }
  apply Nat.eqb_eq in E1, E2.
  assert (Hshaped : length maxs = length dates /\ length mins = length dates)
    by auto.
  pose proof (frame_rows_complete dates maxs mins E1 E2) as Hrows.
  assert (Hidx : (exists i, (i < length dates)%nat
                    /\ nth i maxs None <> None /\ nth i mins None <> None)
                 <-> exists i, nth i maxs None <> None /\ nth i mins None <> None).
  { split; [intros [i [_ H]]; eauto|].
    intros [i [Hx Hn]]. exists i. split; [|auto].
    destruct (Nat.lt_ge_cases i (length dates)) as [Hlt|Hge]; [exact Hlt|].
    exfalso. apply Hx. apply nth_overflow. lia. }
  rewrite Hidx in Hrows. clear Hidx.
  set (daily_data := frame_rows dates maxs mins) in *.
  pose proof (dropna_cons_iff daily_data) as Hcons.
  pose proof (analyze_no_data daily_data) as Hnd.
  split.
  { rewrite Hnd. split.
    - intros E. split; [exact Hshaped|]. intros i Hc.
      assert (Hne : dropna daily_data <> [])
        by (apply Hcons, Hrows; eauto).
      congruence.
    - intros [_ Hall].
      assert (Hd : dropna daily_data = [] \/ dropna daily_data <> [])
        by (destruct (dropna daily_data); [left|right]; congruence).
      destruct Hd as [Hd|Hne]; [exact Hd|]. exfalso.
      apply Hcons, Hrows in Hne. destruct Hne as [i Hc]. exact (Hall i Hc). }
  split; [now left|].
  split; [|split; reflexivity].
  intros c h s H. split; [exact Hshaped|].
  apply Hrows, Hcons. exact (analyze_rendered_nonempty _ _ _ _ H).
Qed.

Lemma process_outcome_witness :
  (0 < Interval gap_response)%Z /\ Time gap_response <> TimeEnd gap_response
  /\ exists cold hot stats,
       process (Some [gap_response]) = Rendered cold hot stats
       /\ length (daily_temperature_2m_max gap_response) = 3%nat
       /\ exists i, nth i (daily_temperature_2m_max gap_response) None <> None
                    /\ nth i (daily_temperature_2m_min gap_response) None <> None.
Proof.
  assert (Hpos : (0 < Interval gap_response)%Z) by reflexivity.
  assert (Hne : Time gap_response <> TimeEnd gap_response) by discriminate.
  split; [exact Hpos|]. split; [exact Hne|].
  destruct (process (Some [gap_response])) as [| |cold hot stats] eqn:E;
    [discriminate|discriminate|].
  exists cold, hot, stats. split; [reflexivity|].
  destruct (process_outcome gap_response [] Hpos Hne) as [_ [_ [H _]]].
  destruct (H cold hot stats E) as [[H1 _] Hex].
  split; [exact H1|exact Hex].
Defined.

Lemma date_compare_lt (a b : Date) :
  date_compare a b = Lt <->
  (year a < year b)%Z
  \/ (year a = year b /\ (month a < month b)%Z)
  \/ (year a = year b /\ month a = month b /\ (day a < day b)%Z).
Proof.
  unfold date_compare.
  destruct (Z.compare_spec (year a) (year b));
    destruct (Z.compare_spec (month a) (month b));
    destruct (Z.compare_spec (day a) (day b));
    split; intros H'; try discriminate; try reflexivity; lia.
Qed.

(** X12: a submitted form reaches the client exactly when the start date is
    strictly before the end date in calendar order; otherwise the date
    error is shown whatever the client would answer.  In particular a range
    of a single day (start equal to end) is refused. *)
Theorem on_submit_dates (start_date end_date : Date)
  (weather_api : Date -> Date -> option (list Response)) :
  let before :=
    (year start_date < year end_date)%Z
    \/ (year start_date = year end_date /\ (month start_date < month end_date)%Z)
    \/ (year start_date = year end_date /\ month start_date = month end_date
        /\ (day start_date < day end_date)%Z) in
  (on_submit true start_date end_date weather_api = DateOrderError <-> ~ before)
  /\ (on_submit true start_date end_date weather_api
        = Shown (process (weather_api start_date end_date)) <-> before)
  /\ on_submit true start_date start_date weather_api = DateOrderError.
Proof.
  cbv zeta. rewrite <- date_compare_lt. unfold on_submit, date_ge.
  split; [|split].
  - destruct (date_compare start_date end_date); split;
      intros H; try reflexivity; try discriminate; congruence.
  - destruct (date_compare start_date end_date); split;
      intros H; try reflexivity; try discriminate.
  - assert (E : date_compare start_date start_date = Eq).
    { unfold date_compare. now rewrite !Z.compare_refl. }
    now rewrite E.
Qed.

(* ===================================================================== *)
(** ** The selected coordinates across reruns *)
(* ===================================================================== *)

Lemma lookup_assign_same (key : String.string) (v : Q) (st : SessionState) :
  lookup key (assign key v st) = Some v.
Proof.
  induction st as [|[k w] st IH]; simpl.
  - now rewrite String.eqb_refl.
  - destruct (String.eqb key k) eqn:E; simpl; rewrite E; [reflexivity|exact IH].
Qed.

Lemma lookup_assign_other (key key' : String.string) (v : Q) (st : SessionState) :
  key' <> key -> lookup key' (assign key v st) = lookup key' st.
Proof.
  intros Hne. induction st as [|[k w] st IH]; simpl.
  - apply String.eqb_neq in Hne. now rewrite Hne.
  - destruct (String.eqb key k) eqn:E; simpl.
    + apply String.eqb_eq in E. subst k.
      apply String.eqb_neq in Hne. now rewrite Hne.
    + destruct (String.eqb key' k); [reflexivity|exact IH].
Qed.

Lemma coordinate_keys_differ :
  "selected_latitude"%string <> "selected_longitude"%string.
Proof. discriminate. Qed.

(** What the session state may hold under the two coordinate keys. *)
Lemma init_coordinates_lookup (st : SessionState) :
  lookup "selected_latitude"%string (init_coordinates st)
    = Some (match lookup "selected_latitude"%string st with Some v => v | None => 52.52 end)
  /\ lookup "selected_longitude"%string (init_coordinates st)
    = Some (match lookup "selected_longitude"%string st with Some v => v | None => 13.41 end).
Proof.
  pose proof coordinate_keys_differ as Hd.
  assert (Hd' : "selected_longitude"%string <> "selected_latitude"%string)
    by (intros E; now apply Hd).
  unfold init_coordinates.
  destruct (lookup "selected_latitude"%string st) as [a|] eqn:Ea.
  - destruct (lookup "selected_longitude"%string st) as [b|] eqn:Eb.
    + rewrite Ea, Eb. auto.
    + rewrite lookup_assign_same.
      rewrite lookup_assign_other by exact Hd. auto.
  - rewrite (lookup_assign_other _ _ 52.52 st Hd').
    destruct (lookup "selected_longitude"%string st) as [b|] eqn:Eb.
    + rewrite lookup_assign_same.
      rewrite lookup_assign_other by exact Hd'. auto.
    + rewrite lookup_assign_same.
      rewrite lookup_assign_other by exact Hd.
      rewrite lookup_assign_same. auto.
Qed.

Lemma location_buttons_lookup (button : String.string -> bool)
  (locs : list (String.string * (Q * Q))) (st : SessionState) :
  (fst (location_buttons button locs st) = st)
  \/ exists city lat lon,
       In (city, (lat, lon)) locs
       /\ lookup "selected_latitude"%string (fst (location_buttons button locs st)) = Some lat
       /\ lookup "selected_longitude"%string (fst (location_buttons button locs st)) = Some lon.
Proof.
  induction locs as [|[city [lat lon]] locs IH]; cbn [location_buttons];
    [now left|].
  destruct (button (String.append "📍 "%string city)).
  - right. exists city, lat, lon. split; [now left|]. cbn [fst].
    rewrite lookup_assign_other by exact coordinate_keys_differ.
    now rewrite !lookup_assign_same.
  - destruct IH as [IH|[c [a [b [Hin H]]]]]; [now left|].
    right. exists c, a, b. split; [now right|exact H].
Qed.

Lemma locations_valid :
  Forall (fun e => -90.0 <= fst (snd e) <= 90.0 /\ -180.0 <= snd (snd e) <= 180.0)
         locations.
Proof. repeat constructor; discriminate. Qed.

Lemma init_coordinates_valid (st : SessionState) :
  coordinates_valid st -> coordinates_valid (init_coordinates st).
Proof.
  intros [Hlat Hlon]. destruct (init_coordinates_lookup st) as [Ea Eb].
  split; intros v Hv.
  - rewrite Ea in Hv. injection Hv as <-.
    destruct (lookup "selected_latitude"%string st) as [a|]; [now apply Hlat|].
    split; discriminate.
  - rewrite Eb in Hv. injection Hv as <-.
    destruct (lookup "selected_longitude"%string st) as [b|]; [now apply Hlon|].
    split; discriminate.
Qed.

Lemma script_run_valid (button : String.string -> bool) (st : SessionState) :
  coordinates_valid st -> coordinates_valid (script_run button st).
Proof.
  intros H. apply init_coordinates_valid in H. unfold script_run.
  destruct (form_defaults (init_coordinates st)); [|exact H].
  destruct (location_buttons_lookup button locations (init_coordinates st))
    as [->|[city [lat [lon [Hin [Ea Eb]]]]]]; [exact H|].
  pose proof locations_valid as HV. rewrite Forall_forall in HV.
  specialize (HV _ Hin). simpl in HV.
  split; intros v Hv; [rewrite Ea in Hv|rewrite Eb in Hv];
    injection Hv as <-; tauto.
Qed.

Lemma reachable_valid (st : SessionState) : reachable st -> coordinates_valid st.
Proof.
  induction 1 as [|button st _ IH].
  - split; intros v Hv; discriminate.
  - now apply script_run_valid.
Qed.

Lemma form_defaults_valid (st : SessionState) (lat lon : Q) :
  lookup "selected_latitude"%string st = Some lat ->
  lookup "selected_longitude"%string st = Some lon ->
  -90.0 <= lat <= 90.0 -> -180.0 <= lon <= 180.0 ->
  form_defaults st = Some (lat, lon).
Proof.
  intros Ea Eb [A1 A2] [B1 B2]. unfold form_defaults, number_input.
  rewrite Ea, Eb.
  rewrite (proj2 (Qle_bool_iff _ _) A1), (proj2 (Qle_bool_iff _ _) A2).
  rewrite (proj2 (Qle_bool_iff _ _) B1), (proj2 (Qle_bool_iff _ _) B2).
  reflexivity.
Qed.

Lemma reachable_form_defaults (st : SessionState) :
  reachable st ->
  exists lat lon : Q, form_defaults (init_coordinates st) = Some (lat, lon).
Proof.
  intros Hr. apply reachable_valid, init_coordinates_valid in Hr.
  destruct Hr as [Hlat Hlon].
  destruct (init_coordinates_lookup st) as [Ea Eb].
  eexists. eexists.
  apply form_defaults_valid; [exact Ea|exact Eb|now apply Hlat|now apply Hlon].
Qed.

(** X13: in every session state reached from the empty one by script runs,
    whatever buttons are pressed, the form gets defaults that its two
    inputs accept: a latitude within [-90, 90] and a longitude within
    [-180, 180].  The inputs therefore never raise on their default. *)
Theorem coordinates_stay_valid (st : SessionState) :
  reachable st ->
  exists lat lon : Q,
    form_defaults (init_coordinates st) = Some (lat, lon)
    /\ lookup "selected_latitude"%string (init_coordinates st) = Some lat
    /\ lookup "selected_longitude"%string (init_coordinates st) = Some lon
    /\ -90.0 <= lat <= 90.0 /\ -180.0 <= lon <= 180.0.
Proof.
  intros Hr. apply reachable_valid, init_coordinates_valid in Hr.
  destruct Hr as [Hlat Hlon].
  destruct (init_coordinates_lookup st) as [Ea Eb].
  eexists. eexists.
  split; [|split; [exact Ea|split; [exact Eb|split; [now apply Hlat|now apply Hlon]]]].
  apply form_defaults_valid; [exact Ea|exact Eb|now apply Hlat|now apply Hlon].
Qed.

Lemma coordinates_stay_valid_witness :
  reachable (script_run (fun _ => false) [])
  /\ exists lat lon : Q,
       form_defaults (init_coordinates (script_run (fun _ => false) []))
         = Some (lat, lon)
       /\ -90.0 <= lat <= 90.0 /\ -180.0 <= lon <= 180.0.
Proof.
  assert (H : reachable (script_run (fun _ => false) []))
    by (apply reachable_run, reachable_start).
  split; [exact H|].
  destruct (coordinates_stay_valid _ H) as [lat [lon [E [_ [_ [A B]]]]]].
  exists lat, lon. auto.
Defined.

Lemma location_buttons_pressed (button : String.string -> bool)
  (locs : list (String.string * (Q * Q))) (st : SessionState)
  (city : String.string) (lat lon : Q) :
  In (city, (lat, lon)) locs ->
  NoDup (map fst locs) ->
  (forall c, button (String.append "📍 "%string c) = String.eqb c city) ->
  location_buttons button locs st
  = (assign "selected_longitude"%string lon (assign "selected_latitude"%string lat st), true).
Proof.
  intros Hin Hnd Hb. induction locs as [|[c [a b]] locs IH]; [destruct Hin|].
  cbn [location_buttons]. rewrite Hb. cbn [map fst] in Hnd.
  inversion Hnd as [|? ? Hnotin Hnd']; subst.
  destruct Hin as [E|Hin].
  - injection E as -> -> ->. now rewrite String.eqb_refl.
  - destruct (String.eqb c city) eqn:Ec.
    + apply String.eqb_eq in Ec. subst c. exfalso. apply Hnotin.
      apply in_map_iff. exists (city, (lat, lon)). auto.
    + now apply IH.
Qed.

Lemma locations_distinct : NoDup (map fst locations).
Proof.
  repeat constructor; simpl; intros H;
    repeat (destruct H as [H|H]; [discriminate H|]); exact H.
Qed.

(** X14: pressing the button of a listed city, and only that one, makes
    the next run offer exactly that city's coordinates as the defaults of
    the form, from any reachable session state. *)
Theorem location_button_sets_defaults (button : String.string -> bool)
  (st : SessionState) (city : String.string) (lat lon : Q) :
  reachable st ->
  In (city, (lat, lon)) locations ->
  (forall c, button (String.append "📍 "%string c) = String.eqb c city) ->
  form_defaults (init_coordinates (script_run button st)) = Some (lat, lon).
Proof.
  intros Hr Hin Hb.
  destruct (reachable_form_defaults st Hr) as [a [b E]].
  unfold script_run. rewrite E.
  rewrite (location_buttons_pressed button locations _ city lat lon Hin
             locations_distinct Hb).
  simpl fst.
  pose proof locations_valid as HV. rewrite Forall_forall in HV.
  specialize (HV _ Hin). simpl in HV.
  set (st2 := assign "selected_longitude"%string lon
                (assign "selected_latitude"%string lat (init_coordinates st))).
  assert (Ea : lookup "selected_latitude"%string st2 = Some lat).
  { unfold st2. rewrite lookup_assign_other by exact coordinate_keys_differ.
    apply lookup_assign_same. }
  assert (Eb : lookup "selected_longitude"%string st2 = Some lon)
    by apply lookup_assign_same.
  destruct (init_coordinates_lookup st2) as [Ia Ib].
  rewrite Ea in Ia. rewrite Eb in Ib.
  apply form_defaults_valid; tauto.
Qed.

Lemma location_button_sets_defaults_witness :
  reachable []
  /\ In ("Tokyo, Japan"%string, (35.68, 139.69)) locations
  /\ form_defaults
       (init_coordinates
          (script_run (fun label => String.eqb label "📍 Tokyo, Japan"%string) []))
     = Some (35.68, 139.69).
Proof.
  assert (Hin : In ("Tokyo, Japan"%string, (35.68, 139.69)) locations)
    by (simpl; tauto).
  split; [exact reachable_start|]. split; [exact Hin|].
  apply (location_button_sets_defaults
           (fun label => String.eqb label "📍 Tokyo, Japan"%string)
           [] "Tokyo, Japan"%string 35.68 139.69 reachable_start Hin).
  intros c. reflexivity.
Defined.

(* ===================================================================== *)
(** ** Cleaning, seen from the charts *)
(* ===================================================================== *)

Lemma Subsequence_sorted {A : Type} (R : A -> A -> Prop) (l1 l2 : list A) :
  Subsequence l1 l2 -> StronglySorted R l2 -> StronglySorted R l1.
Proof.
  induction 1 as [|x l1 l2 Hs IH|x l1 l2 Hs IH]; intros H2.
  - constructor.
  - inversion H2 as [|? ? Hl2 Hx]; subst. constructor; [now apply IH|].
    clear IH Hl2 H2. induction Hs as [|y l1 l2 Hs IH|y l1 l2 Hs IH].
    + constructor.
    + inversion Hx; subst. constructor; auto.
    + inversion Hx; subst. auto.
  - inversion H2; subst. now apply IH.
Qed.

Lemma Subsequence_map {A B : Type} (f : A -> B) (l1 l2 : list A) :
  Subsequence l1 l2 -> Subsequence (map f l1) (map f l2).
Proof. induction 1; simpl; now constructor. Qed.

(** X15: for a response with a positive interval whose arrays fit its time
    axis, the frame that is analysed after cleaning lists its days in
    strictly increasing time order, each one a stamp of the axis, at or
    after the start and (unless the end equals the start) before the
    end. *)
Theorem cleaned_days_in_order (response : Response) :
  (0 < Interval response)%Z ->
  forall dates daily_data,
    date_range (Time response) (TimeEnd response) (Interval response) = Some dates ->
    make_DataFrame dates (daily_temperature_2m_max response)
                   (daily_temperature_2m_min response) = Some daily_data ->
    StronglySorted Z.lt (map date (dropna daily_data))
    /\ Subsequence (map date (dropna daily_data)) dates
    /\ Forall (fun d => (Time response <= d)%Z
                        /\ ((d < TimeEnd response)%Z
                            \/ Time response = TimeEnd response))
              (map date (dropna daily_data)).
Proof.
  intros Hpos dates daily_data Hd Hf.
  destruct (date_range_shape (Time response) (TimeEnd response) _ Hpos)
    as [l [El [Hs [Hin _]]]].
  assert (l = dates) by congruence. subst l.
  assert (Hcols : map date daily_data = dates).
  { unfold make_DataFrame in Hf.
    destruct ((length dates =? length (daily_temperature_2m_max response))
              && (length dates =? length (daily_temperature_2m_min response)))%nat
      eqn:E; [|discriminate].
    injection Hf as <-. apply andb_true_iff in E.
    rewrite !Nat.eqb_eq in E. now apply frame_rows_columns. }
  assert (Hsub : Subsequence (map date (dropna daily_data)) dates).
  { rewrite <- Hcols. apply Subsequence_map.
    rewrite dropna_filter. apply filter_Subsequence. }
  split; [exact (Subsequence_sorted _ _ _ Hsub Hs)|].
  split; [exact Hsub|].
  apply Forall_forall. intros d Hdin.
  assert (Hd' : In d dates).
  { clear - Hsub Hdin. induction Hsub; simpl in *; tauto. }
  rewrite Forall_forall in Hin. now apply Hin.
Qed.

Lemma cleaned_days_in_order_witness :
  (0 < Interval gap_response)%Z
  /\ exists dates daily_data,
       date_range (Time gap_response) (TimeEnd gap_response)
                  (Interval gap_response) = Some dates
       /\ make_DataFrame dates (daily_temperature_2m_max gap_response)
                         (daily_temperature_2m_min gap_response) = Some daily_data
       /\ StronglySorted Z.lt (map date (dropna daily_data)).
Proof.
  assert (Hpos : (0 < Interval gap_response)%Z) by reflexivity.
  split; [exact Hpos|].
  destruct (date_range (Time gap_response) (TimeEnd gap_response)
                       (Interval gap_response)) as [dates|] eqn:Ed;
    [|discriminate].
  destruct (make_DataFrame dates (daily_temperature_2m_max gap_response)
                           (daily_temperature_2m_min gap_response))
    as [daily_data|] eqn:Ef.
  - exists dates, daily_data. split; [reflexivity|]. split; [exact Ef|].
    apply (cleaned_days_in_order gap_response Hpos dates daily_data Ed Ef).
  - exfalso. vm_compute in Ed. injection Ed as <-. discriminate.
Defined.

(** X16: a day with a missing reading is left out of both charts and of
    the day count: the cold count over the cleaned frame is the count over
    the raw minima less the days whose minimum is below the threshold but
    whose maximum is missing; likewise for the hot count; and Total Days is
    the number of rows less the incomplete ones. *)
Theorem incomplete_days_not_counted (df : DataFrame) (t : Q) :
  (cold_days (dropna df) t
   + length (filter (fun r => match temperature_2m_min r, temperature_2m_max r with
                              | Some v, None => Qltb v t
                              | _, _ => false
                              end) df)
   = cold_days df t)%nat
  /\ (hot_days (dropna df) t
      + length (filter (fun r => match temperature_2m_max r, temperature_2m_min r with
                                 | Some v, None => Qltb t v
                                 | _, _ => false
                                 end) df)
      = hot_days df t)%nat
  /\ (total_days (summary (dropna df))
      + length (filter (fun r => negb (both_present r)) df)
      = length df)%nat.
Proof.
  rewrite !cold_days_below, !hot_days_above, dropna_filter.
  unfold column, both_present. simpl total_days.
  induction df as [|r df [IH1 [IH2 IH3]]]; simpl; [auto|].
  destruct r as [d [b|] [a|]]; simpl;
    try destruct (Qltb a t); try destruct (Qltb t b); simpl;
    repeat split; lia.
Qed.
